(** * finance-web: the ledger, its analytics, the budget tracker and the
      receipt pipeline of [App.tsx], embedded in Rocq.

    The development follows the source file top-down: the JavaScript values
    the code computes with (numbers, strings, dates, arrays), the analytics
    functions, the tables, and then the handlers of the [App] component as
    functions on the component state.

    Conventions of the embedding.
    - A JavaScript [number] is a rational, [NaN] or one of the two
      infinities.  Arithmetic on finite values is exact: IEEE-754 rounding
      and the sign of zero are not modelled.
    - A [Date] is modelled by its time value, an integer count of
      milliseconds; the Invalid Date is outside the model (timestamps that
      reach the ledger are assumed to parse).
    - A string is a sequence of 8-bit characters; case mapping and white
      space are those of the ASCII / Latin-1 range.
    - The remote store, the clock and the parsing of user input are
      parameters of the handlers. *)

From Stdlib Require Import Ascii QArith Qcanon Qcabs Qround.
From stdpp Require Import base numbers list strings sorting pretty.

Local Open Scope Z_scope.

(** ** JavaScript numbers *)

Module JS.

Inductive number : Type :=
| Fin (q : Qc)
| PosInf
| NegInf
| NaN.

#[global] Instance number_eq_dec : EqDecision number.
Proof. solve_decision. Defined.

Definition of_Z (z : Z) : number := Fin (Qc_of_Z z).

Definition zero : number := of_Z 0.

Definition isFinite (x : number) : bool :=
match x with Fin _ => true | _ => false end.

Definition isNaN (x : number) : bool :=
match x with NaN => true | _ => false end.

(** Unary minus. *)
Definition neg (x : number) : number :=
match x with
| Fin q => Fin (- q)%Qc
| PosInf => NegInf
| NegInf => PosInf
| NaN => NaN
end.

(** [Math.abs]. *)
Definition abs (x : number) : number :=
match x with
| Fin q => Fin (Qcabs q)
| PosInf | NegInf => PosInf
| NaN => NaN
end.

(** [x + y]. *)
Definition add (x y : number) : number :=
match x, y with
| NaN, _ | _, NaN => NaN
| Fin a, Fin b => Fin (a + b)%Qc
| PosInf, NegInf | NegInf, PosInf => NaN
| PosInf, _ | _, PosInf => PosInf
| NegInf, _ | _, NegInf => NegInf
end.

(** [x - y]. *)
Definition sub (x y : number) : number := add x (neg y).

(** The sign of a rational: [-1], [0] or [1]. *)
Definition sgn (q : Qc) : Z :=
if bool_decide (q < 0)%Qc then -1
else if bool_decide (0 < q)%Qc then 1 else 0.

(** An infinity of the given sign; a zero sign yields [NaN]. *)
Definition inf_of_sign (s : Z) : number :=
if s <? 0 then NegInf else if 0 <? s then PosInf else NaN.

(** [x * y]. *)
Definition mul (x y : number) : number :=
match x, y with
| NaN, _ | _, NaN => NaN
| Fin a, Fin b => Fin (a * b)%Qc
| Fin a, PosInf | PosInf, Fin a => inf_of_sign (sgn a)
| Fin a, NegInf | NegInf, Fin a => inf_of_sign (- sgn a)
| PosInf, PosInf | NegInf, NegInf => PosInf
| PosInf, NegInf | NegInf, PosInf => NegInf
end.

(** [x / y].  A zero divisor is taken to be [+0]. *)
Definition div (x y : number) : number :=
match x, y with
| NaN, _ | _, NaN => NaN
| Fin a, Fin b =>
    if bool_decide (b = 0%Qc) then inf_of_sign (sgn a) else Fin (a / b)%Qc
| Fin _, (PosInf | NegInf) => zero
| PosInf, Fin b => if bool_decide (b < 0)%Qc then NegInf else PosInf
| NegInf, Fin b => if bool_decide (b < 0)%Qc then PosInf else NegInf
| (PosInf | NegInf), (PosInf | NegInf) => NaN
end.

(** [x < y]: false as soon as one side is [NaN]. *)
Definition lt (x y : number) : bool :=
match x, y with
| NaN, _ | _, NaN => false
| Fin a, Fin b => bool_decide (a < b)%Qc
| NegInf, (Fin _ | PosInf) => true
| Fin _, PosInf => true
| _, _ => false
end.

(** [x > y]. *)
Definition gt (x y : number) : bool := lt y x.

(** [x <= y]. *)
Definition le (x y : number) : bool :=
match x, y with
| NaN, _ | _, NaN => false
| Fin a, Fin b => bool_decide (a <= b)%Qc
| NegInf, _ | _, PosInf => true
| _, _ => false
end.

(** [x >= y]. *)
Definition ge (x y : number) : bool := le y x.

(** [Math.round]: the nearest integer, halves rounded towards [+Infinity]. *)
Definition round (x : number) : number :=
match x with
| Fin q => of_Z (Qfloor (this q + (1 # 2)))
| _ => x
end.

(** [Math.min] of two arguments. *)
Definition min (x y : number) : number :=
match x, y with
| NaN, _ | _, NaN => NaN
| _, _ => if lt y x then y else x
end.

(** [Math.max] of two arguments. *)
Definition max (x y : number) : number :=
match x, y with
| NaN, _ | _, NaN => NaN
| _, _ => if lt x y then y else x
end.

(** Truthiness of a number: every value but zero and [NaN]. *)
Definition truthy (x : number) : bool :=
match x with
| Fin q => negb (bool_decide (q = 0%Qc))
| NaN => false
| _ => true
end.

(** A decimal literal [n / 10^k], e.g. [dec 45 1] for [4.5]. *)
Definition dec (n : Z) (k : nat) : number :=
Fin (Q2Qc (Qmake n (Pos.pow 10 (Pos.of_nat k)))).

End JS.

Export JS.

Declare Scope js_scope.
Delimit Scope js_scope with js.
Bind Scope js_scope with number.
Infix "+" := add : js_scope.
Infix "-" := sub : js_scope.
Infix "*" := mul : js_scope.
Infix "/" := div : js_scope.
Notation "- x" := (neg x) : js_scope.
Infix "<" := lt : js_scope.
Infix ">" := gt : js_scope.

(** ** Strings *)

(** White space as [String.prototype.trim] and the regular expression class
    [\s] see it, within the 8-bit range. *)
Definition is_white (c : ascii) : bool :=
  let n := nat_of_ascii c in
  bool_decide (n ∈ [9; 10; 11; 12; 13; 32; 160]%nat).

Fixpoint trimStart (s : string) : string :=
  match s with
  | String c s' => if is_white c then trimStart s' else s
  | EmptyString => EmptyString
  end.

Definition trimEnd (s : string) : string :=
  String.rev (trimStart (String.rev s)).

(** [s.trim()]. *)
Definition trim (s : string) : string := trimEnd (trimStart s).

Definition lower_ascii (c : ascii) : ascii :=
  let n := nat_of_ascii c in
  if bool_decide (65 ≤ n ≤ 90)%nat then ascii_of_nat (n + 32) else c.

Definition upper_ascii (c : ascii) : ascii :=
  let n := nat_of_ascii c in
  if bool_decide (97 ≤ n ≤ 122)%nat then ascii_of_nat (n - 32) else c.

Fixpoint map_string (f : ascii → ascii) (s : string) : string :=
  match s with
  | String c s' => String (f c) (map_string f s')
  | EmptyString => EmptyString
  end.

(** [s.toLowerCase()]. *)
Definition toLowerCase : string → string := map_string lower_ascii.

(** [s.toUpperCase()]. *)
Definition toUpperCase : string → string := map_string upper_ascii.

(** [s.includes(needle)]. *)
Fixpoint includes (s needle : string) : bool :=
  String.prefix needle s ||
  match s with
  | String _ s' => includes s' needle
  | EmptyString => false
  end.

(** [s?.includes(needle)] on a nullable string, taken as a condition. *)
Definition includes_opt (s : option string) (needle : string) : bool :=
  match s with
  | Some s => includes s needle
  | None => false
  end.

(** Truthiness of a nullable string: present and not empty. *)
Definition nonempty (s : option string) : option string :=
  match s with
  | Some EmptyString | None => None
  | Some s => Some s
  end.

(** [s.slice(n)] for [0 <= n]. *)
Fixpoint drop_string (n : nat) (s : string) : string :=
  match n, s with
  | S n', String _ s' => drop_string n' s'
  | _, _ => s
  end.

(** [s.slice(0, n)] for [0 <= n]. *)
Fixpoint take_string (n : nat) (s : string) : string :=
  match n, s with
  | S n', String c s' => String c (take_string n' s')
  | _, _ => EmptyString
  end.

(** ** Arrays: [Array.prototype.sort]

    The sort is stable and driven by a comparison function [comparefn a b];
    [a] stays before [b] when the result is not positive, a [NaN] result
    counting as zero.  For a consistent comparison function every stable
    sort returns the same array; insertion sort stands for it here. *)

Class CompareResult (R : Type) := not_positive : R → bool.

#[global] Instance compare_Z : CompareResult Z := λ v, v <=? 0.

#[global] Instance compare_number : CompareResult number := λ v,
  match v with
  | Fin q => bool_decide (q <= 0)%Qc
  | PosInf => false
  | NegInf | NaN => true
  end.

Section sort.
Context {A R : Type} `{CompareResult R} (comparefn : A → A → R).

Fixpoint sort_insert (x : A) (l : list A) : list A :=
  match l with
  | [] => [x]
  | y :: l' =>
      if not_positive (comparefn x y) then x :: y :: l'
      else y :: sort_insert x l'
  end.

Definition Array_sort (l : list A) : list A := foldr sort_insert [] l.
End sort.


(** ** Dates

    The local calendar is the one of the host: the component only calls
    the constructor [new Date(year, month, day, h, m, s)] and the getters
    below on time values. *)

Definition time := Z.

Class DateAPI := {
  getFullYear : time → Z;
  (** [0] (January) to [11] *)
  getMonth : time → Z;
  (** [0] (Sunday) to [6] *)
  getDay : time → Z;
  newDate : Z → Z → Z → Z → Z → Z → time;
  getDay_range : ∀ t, 0 <= getDay t < 7;
}.

(** The calendar of a host whose local time is UTC: the proleptic
    Gregorian calendar, days counted from 1970-01-01. *)
Module UTC.

Definition ms_per_day : Z := 86400000.

(** Days from the epoch to the civil date [y]-[m]-[d], [m] from 1. *)
Definition days_from_civil (y m d : Z) : Z :=
  let y' := if m <=? 2 then y - 1 else y in
  let era := y' / 400 in
  let yoe := y' - era * 400 in
  let mp := (m + 9) mod 12 in
  let doy := (153 * mp + 2) / 5 + d - 1 in
  let doe := yoe * 365 + yoe / 4 - yoe / 100 + doy in
  era * 146097 + doe - 719468.

(** The civil date (year, month from 1, day) of a day count. *)
Definition civil_from_days (z : Z) : Z * Z * Z :=
  let z' := z + 719468 in
  let era := z' / 146097 in
  let doe := z' - era * 146097 in
  let yoe := (doe - doe / 1460 + doe / 36524 - doe / 146096) / 365 in
  let doy := doe - (365 * yoe + yoe / 4 - yoe / 100) in
  let mp := (5 * doy + 2) / 153 in
  let d := doy - (153 * mp + 2) / 5 + 1 in
  let m := if mp <? 10 then mp + 3 else mp - 9 in
  (if m <=? 2 then yoe + era * 400 + 1 else yoe + era * 400, m, d).

Definition year_of (t : time) : Z := (civil_from_days (t / ms_per_day)).1.1.
Definition month_of (t : time) : Z := (civil_from_days (t / ms_per_day)).1.2 - 1.
Definition weekday_of (t : time) : Z := (t / ms_per_day + 4) mod 7.

(** Months and days out of range carry over, as in the constructor. *)
Definition make (y m d h mi s : Z) : time :=
  (days_from_civil (y + m / 12) (m mod 12 + 1) 1 + (d - 1)) * ms_per_day
  + h * 3600000 + mi * 60000 + s * 1000.

Definition api : DateAPI :=
  {| getFullYear := year_of; getMonth := month_of; getDay := weekday_of;
     newDate := make;
     getDay_range := λ t, Z.mod_pos_bound (t / ms_per_day + 4) 7 eq_refl |}.

End UTC.

(** ** Objects used as dictionaries

    [Record<string, V>] is a plain object: its own properties are kept in
    creation order, and a read of a key the object does not own falls
    through to [Object.prototype]. *)

Module Obj.

Definition t (V : Type) : Type := list (string * V).


Fixpoint get {V} (o : t V) (k : string) : option V :=
  match o with
  | [] => None
  | (k', v) :: o' => if bool_decide (k' = k) then Some v else get o' k
  end.


(** The property names every object inherits from [Object.prototype];
    all of them read as truthy values. *)
Definition inherited (k : string) : bool :=
  bool_decide (k ∈ ["constructor"; "toString"; "toLocaleString"; "valueOf";
                    "hasOwnProperty"; "isPrototypeOf";
                    "propertyIsEnumerable"; "__proto__";
                    "__defineGetter__"; "__defineSetter__";
                    "__lookupGetter__"; "__lookupSetter__"]).

Definition is_digit (c : ascii) : bool :=
  let n := nat_of_ascii c in bool_decide (48 ≤ n ≤ 57)%nat.






End Obj.

(** ** Types *)

Record Transaction := {
  id : string;
  icon : string;
  label : string;
  amount : number;
  date : option time;
}.

Record Category := {
  cat_id : string;
  cat_label : string;
  cat_value : Z;
  cat_color : string;
  cat_icon : string;
}.

Record PendingItem := {
  item_id : string;
  description : string;
  price : number;
  (** the receipt date as extracted, e.g. ["2024-02-29"] *)
  item_date : option string;
  category : option string;
  categoryIcon : option string;
}.

Record Budget := {
  categoryId : string;
  limit : number;
}.

Record MerchantData := {
  name : string;
  totalAmount : number;
  transactionCount : Z;
  lastTransaction : option time;
}.

Record DayOfWeekData := {
  day : string;
  dayIndex : Z;
  dow_totalAmount : number;
  dow_transactionCount : Z;
  averageAmount : number;
}.

#[global] Instance Transaction_eq_dec : EqDecision Transaction.
Proof. solve_decision. Defined.
#[global] Instance PendingItem_eq_dec : EqDecision PendingItem.
Proof. solve_decision. Defined.
#[global] Instance MerchantData_eq_dec : EqDecision MerchantData.
Proof. solve_decision. Defined.
#[global] Instance DayOfWeekData_eq_dec : EqDecision DayOfWeekData.
Proof. solve_decision. Defined.

Definition ITEMS_PER_PAGE : nat := 25.

(** ** Analytics utility functions *)

(** [t.amount < 0]. *)
Definition is_expense (t : Transaction) : bool := (amount t < zero)%js.

(** [arr.reduce((sum, t) => sum + t.amount, 0)]. *)
Definition sum_amounts (l : list Transaction) : number :=
  foldl (λ sum t, (sum + amount t)%js) zero l.


(** The three updates [getTopMerchants] applies to the entry of a merchant
    for one of its transactions. *)
Definition record_payment (m : MerchantData) (t : Transaction) : MerchantData :=
  {| name := name m;
     totalAmount := (totalAmount m + abs (amount t))%js;
     transactionCount := transactionCount m + 1;
     lastTransaction :=
       match lastTransaction m, date t with
       | None, d => d
       | Some l, Some d => if l <? d then Some d else Some l
       | Some l, None => Some l
       end |}.



Definition dayNames : list string :=
  ["Sun"; "Mon"; "Tue"; "Wed"; "Thu"; "Fri"; "Sat"].

Section analytics.
Context `{DateAPI}.

(** [t => t.amount < 0 && t.date]. *)
Definition dated_expense (t : Transaction) : bool :=
  is_expense t && bool_decide (is_Some (date t)).

(** One round of the [forEach] of [getDayOfWeekPatterns]; a weekday
    without a slot would make the property access throw. *)
Definition day_step (dayData : list (number * Z)) (t : Transaction)
    : option (list (number * Z)) :=
  d ← date t;
  let dayIndex := getDay d in
  if bool_decide (0 <= dayIndex) then
    slot ← dayData !! Z.to_nat dayIndex;
    Some (<[Z.to_nat dayIndex := ((slot.1 + abs (amount t))%js, slot.2 + 1)]>
            dayData)
  else None.

Definition getDayOfWeekPatterns (transactions : list Transaction)
    : option (list DayOfWeekData) :=
  dayData ← foldl (λ acc t, acc ≫= λ dd, day_step dd t)
               (Some (replicate 7 (zero, 0)))
               (List.filter dated_expense transactions);
  mapM (λ '(index, day),
          slot ← dayData !! index;
          Some {| day := day;
                  dayIndex := Z.of_nat index;
                  dow_totalAmount := slot.1;
                  dow_transactionCount := slot.2;
                  averageAmount :=
                    if 0 <? slot.2 then (slot.1 / of_Z slot.2)%js
                    else zero |})
       (imap (λ i d, (i, d)) dayNames).

(** [txDate >= from && txDate <= to] on a dated transaction. *)
Definition dated_within (from to : time) (t : Transaction) : bool :=
  match date t with
  | None => false
  | Some txDate => (from <=? txDate) && (txDate <=? to)
  end.

Record MonthComparison := {
  current : number;
  previous : number;
  change : number;
  changePercent : number;
}.

Definition getMonthComparison (now : time) (transactions : list Transaction)
    : MonthComparison :=
  let startOfCurrentMonth := newDate (getFullYear now) (getMonth now) 1 0 0 0 in
  let endOfCurrentMonth :=
    newDate (getFullYear now) (getMonth now + 1) 0 23 59 59 in
  let startOfPrevMonth := newDate (getFullYear now) (getMonth now - 1) 1 0 0 0 in
  let endOfPrevMonth := newDate (getFullYear now) (getMonth now) 0 23 59 59 in
  let currentMonthExpenses :=
    abs (sum_amounts
           (List.filter
              (λ t, dated_within startOfCurrentMonth endOfCurrentMonth t
                    && is_expense t)
              transactions)) in
  let prevMonthExpenses :=
    abs (sum_amounts
           (List.filter
              (λ t, dated_within startOfPrevMonth endOfPrevMonth t
                    && is_expense t)
              transactions)) in
  let change := (currentMonthExpenses - prevMonthExpenses)%js in
  let changePercent :=
    if (prevMonthExpenses > zero)%js
    then round ((change / prevMonthExpenses) * of_Z 100)%js
    else zero in
  {| current := currentMonthExpenses; previous := prevMonthExpenses;
     change := change; changePercent := changePercent |}.

End analytics.

#[global] Instance MonthComparison_eq_dec : EqDecision MonthComparison.
Proof. solve_decision. Defined.

(** ** Tables *)

Definition categories : list Category :=
  [ {| cat_id := "utilities-bills"; cat_label := "Utilities & Bills";
       cat_value := 35; cat_color := "#1f6f4d"; cat_icon := "Zap" |};
    {| cat_id := "food-dining"; cat_label := "Food & Dining";
       cat_value := 19; cat_color := "#2d9b6e"; cat_icon := "Coffee" |};
    {| cat_id := "transportation"; cat_label := "Transportation";
       cat_value := 10; cat_color := "#4db88a"; cat_icon := "Truck" |};
    {| cat_id := "shopping-clothing"; cat_label := "Shopping & Clothing";
       cat_value := 0; cat_color := "#7fcba4"; cat_icon := "ShoppingBag" |};
    {| cat_id := "health-wellness"; cat_label := "Health & Wellness";
       cat_value := 0; cat_color := "#a8d9be"; cat_icon := "Heart" |};
    {| cat_id := "recreation-entertainment";
       cat_label := "Recreation & Entertainment";
       cat_value := 7; cat_color := "#3a8f5c"; cat_icon := "Film" |};
    {| cat_id := "financial-obligations"; cat_label := "Financial Obligations";
       cat_value := 0; cat_color := "#165c3e"; cat_icon := "CreditCard" |};
    {| cat_id := "savings-investments"; cat_label := "Savings & Investments";
       cat_value := 0; cat_color := "#0d4a2f"; cat_icon := "TrendingUp" |};
    {| cat_id := "miscellaneous-other"; cat_label := "Miscellaneous / Other";
       cat_value := 29; cat_color := "#b5dcc5"; cat_icon := "MoreHorizontal" |} ].

(** Transaction type labels of the parsed e-mails: (label, shortLabel). *)
Definition transactionTypeLabels : Obj.t (string * string) :=
  [ ("transfer_sent", ("Transferencia enviada", "Enviado"));
    ("transfer_received", ("Transferencia recibida", "Recibido"));
    ("payment_sent", ("Pago realizado", "Pago"));
    ("payment_received", ("Pago recibido", "Cobro"));
    ("deposit", ("Depósito", "Depósito"));
    ("withdrawal", ("Retiro", "Retiro"));
    ("refund_received", ("Reembolso recibido", "Reembolso"));
    ("refund_sent", ("Reembolso enviado", "Reembolso")) ].

(** Category mapping: category id to (icon, label). *)
Definition categoryMapping : Obj.t (string * string) :=
  [ ("utilities-bills", ("Zap", "Utilities & Bills"));
    ("food-dining", ("Coffee", "Food & Dining"));
    ("transportation", ("Truck", "Transportation"));
    ("shopping-clothing", ("ShoppingBag", "Shopping & Clothing"));
    ("health-wellness", ("Heart", "Health & Wellness"));
    ("recreation-entertainment", ("Film", "Recreation & Entertainment"));
    ("financial-obligations", ("CreditCard", "Financial Obligations"));
    ("savings-investments", ("TrendingUp", "Savings & Investments"));
    ("miscellaneous-other", ("MoreHorizontal", "Miscellaneous / Other")) ].

(** [normalizeEmailSubject]: strip one forwarding or reply prefix and the
    white space after it, then a leading "Tu " or "Your ", trim, and
    capitalise the first letter; an empty result is [null]. *)
Definition strip_prefix_ci (p s : string) : option string :=
  if bool_decide (toLowerCase (take_string (String.length p) s) = p)
  then Some (drop_string (String.length p) s) else None.

Definition normalizeEmailSubject (subject : option string) : option string :=
  match nonempty subject with
  | None => None
  | Some subject =>
      let clean :=
        match strip_prefix_ci "fwd:" subject with
        | Some r => trimStart r
        | None =>
            match strip_prefix_ci "re:" subject with
            | Some r => trimStart r
            | None =>
                match strip_prefix_ci "fw:" subject with
                | Some r => trimStart r
                | None => subject
                end
            end
        end in
      let clean :=
        match strip_prefix_ci "tu " clean with
        | Some r => r
        | None => default clean (strip_prefix_ci "your " clean)
        end in
      let clean := trim clean in
      let clean :=
        match clean with
        | String c rest => String (upper_ascii c) rest
        | EmptyString => clean
        end in
      nonempty (Some clean)
  end.

(** ** The remote store and the host

    A query answers with a [{ data, error }] pair.  The two collections are
    read by range, [select_* offset] standing for
    [.range(offset, offset + ITEMS_PER_PAGE - 1)]. *)

Record response (A : Type) := {
  data : option A;
  error : option string;
}.
Arguments data {A} _.
Arguments error {A} _.

Record ExpenseRow := {
  row_id : string;
  row_label : string;
  row_amount : number;
  row_icon : option string;
  transaction_at : option time;
}.

Record MpRow := {
  mp_id : string;
  email_subject : option string;
  mp_description : option string;
  mp_amount : number;
  mp_type : option string;
  mp_category : option string;
  received_at : option time;
}.

Record ExpenseInsert := {
  ins_label : string;
  ins_amount : number;
  ins_icon : string;
  ins_category_id : option string;
  ins_transaction_at : option time;
}.

Record Remote := {
  select_expenses : nat → response (list ExpenseRow);
  select_transactions : nat → response (list MpRow);
  insert_expense : ExpenseInsert → response ExpenseRow;
  insert_expenses : list ExpenseInsert → response (list ExpenseRow);
}.

(** What the handlers ask of the host: the successive readings of the clock
    ([Date.now()], [new Date()]), the parsing of a receipt date at local
    noon ([new Date(s + 'T12:00:00')]) and [Number(s)] on a string. *)
Class Host := {
  clock : nat → time;
  parseNoon : string → time;
  Number_of_string : string → number;
}.

(** ** The component state *)

Record AppState := {
  transactionsList : list Transaction;
  hasMoreTransactions : bool;
  pendingItems : list PendingItem;
  isOcrModalVisible : bool;
  isManualModalVisible : bool;
  manualDescription : string;
  manualAmount : string;
  manualCategoryId : option string;
  manualDate : time;
  isCategoryPickerOpen : bool;
  isDatePickerVisible : bool;
}.

Definition setTransactionsList (f : list Transaction → list Transaction)
    (st : AppState) : AppState :=
  {| transactionsList := f (transactionsList st);
     hasMoreTransactions := hasMoreTransactions st;
     pendingItems := pendingItems st;
     isOcrModalVisible := isOcrModalVisible st;
     isManualModalVisible := isManualModalVisible st;
     manualDescription := manualDescription st;
     manualAmount := manualAmount st;
     manualCategoryId := manualCategoryId st;
     manualDate := manualDate st;
     isCategoryPickerOpen := isCategoryPickerOpen st;
     isDatePickerVisible := isDatePickerVisible st |}.

Definition setHasMoreTransactions (b : bool) (st : AppState) : AppState :=
  {| transactionsList := transactionsList st;
     hasMoreTransactions := b;
     pendingItems := pendingItems st;
     isOcrModalVisible := isOcrModalVisible st;
     isManualModalVisible := isManualModalVisible st;
     manualDescription := manualDescription st;
     manualAmount := manualAmount st;
     manualCategoryId := manualCategoryId st;
     manualDate := manualDate st;
     isCategoryPickerOpen := isCategoryPickerOpen st;
     isDatePickerVisible := isDatePickerVisible st |}.

(** The closing assignments of [addManualExpense]. *)
Definition resetManualForm (now : time) (st : AppState) : AppState :=
  {| transactionsList := transactionsList st;
     hasMoreTransactions := hasMoreTransactions st;
     pendingItems := pendingItems st;
     isOcrModalVisible := isOcrModalVisible st;
     isManualModalVisible := false;
     manualDescription := "";
     manualAmount := "";
     manualCategoryId := None;
     manualDate := now;
     isCategoryPickerOpen := false;
     isDatePickerVisible := false |}.

(** The closing assignments of [addOcrExpenses]. *)
Definition closeOcrModal (st : AppState) : AppState :=
  {| transactionsList := transactionsList st;
     hasMoreTransactions := hasMoreTransactions st;
     pendingItems := [];
     isOcrModalVisible := false;
     isManualModalVisible := isManualModalVisible st;
     manualDescription := manualDescription st;
     manualAmount := manualAmount st;
     manualCategoryId := manualCategoryId st;
     manualDate := manualDate st;
     isCategoryPickerOpen := isCategoryPickerOpen st;
     isDatePickerVisible := isDatePickerVisible st |}.

(** ** Loading and merging the two sources *)

(** The comparison function of every sort of the ledger:
    [dateB - dateA], an undated transaction counting as time [0]. *)
Definition time_key (t : Transaction) : Z := default 0 (date t).

Definition by_date_desc (a b : Transaction) : Z := time_key b - time_key a.

Definition mapExpense (row : ExpenseRow) : Transaction :=
  {| id := row_id row;
     icon := default "ShoppingBag" (nonempty (row_icon row));
     label := row_label row;
     amount := row_amount row;
     date := transaction_at row |}.

(** [row.category && categoryMapping[row.category]]. *)
Definition mapped_category (row : MpRow) : option (string * string) :=
  c ← nonempty (mp_category row); Obj.get categoryMapping c.

Definition mp_icon (row : MpRow) : string :=
  match mapped_category row with
  | Some cat => cat.1
  | None =>
      if includes_opt (mp_type row) "sent" || includes_opt (mp_type row) "payment"
      then "ArrowUpRight"
      else if includes_opt (mp_type row) "received"
              || includes_opt (mp_type row) "deposit"
      then "ArrowDownLeft"
      else "DollarSign"
  end.

Definition mp_label (row : MpRow) : string :=
  match nonempty (trim <$> mp_description row) with
  | Some d => d
  | None =>
      match mapped_category row with
      | Some cat => cat.2
      | None =>
          match nonempty (mp_type row) ≫= Obj.get transactionTypeLabels with
          | Some ty => ty.1
          | None =>
              match nonempty (email_subject row) with
              | Some subject =>
                  default "Mercado Pago" (normalizeEmailSubject (Some subject))
              | None => "Mercado Pago"
              end
          end
      end
  end.

(** For outgoing transactions, make amount negative. *)
Definition isOutgoing (row : MpRow) : bool :=
  includes_opt (mp_type row) "sent"
  || includes_opt (mp_type row) "payment"
  || includes_opt (mp_type row) "withdrawal"
  || includes_opt (toLowerCase <$> email_subject row) "enviada"
  || includes_opt (toLowerCase <$> email_subject row) "pagaste".

Definition mapMp (row : MpRow) : Transaction :=
  {| id := "mp_" +:+ mp_id row;
     icon := mp_icon row;
     label := mp_label row;
     amount := if isOutgoing row then (- abs (mp_amount row))%js
               else abs (mp_amount row);
     date := received_at row |}.

(** The functional update of the ledger on [reset = false]. *)
Definition mergePage (allTransactions prev : list Transaction)
    : list Transaction :=
  let existingIds := id <$> prev in
  let newItems :=
    List.filter (λ t, negb (bool_decide (id t ∈ existingIds))) allTransactions in
  Array_sort by_date_desc (prev ++ newItems).

Definition loadTransactions (session : option Remote) (reset : bool)
    (st : AppState) : AppState :=
  match session with
  | None => st
  | Some remote =>
      let offset := if reset then 0%nat else length (transactionsList st) in
      let expenses := select_expenses remote offset in
      match error expenses with
      | Some _ => st
      | None =>
          let mp := select_transactions remote offset in
          let mappedExpenses := mapExpense <$> default [] (data expenses) in
          let mappedMp := mapMp <$> default [] (data mp) in
          let allTransactions :=
            Array_sort by_date_desc (mappedExpenses ++ mappedMp) in
          let st :=
            setHasMoreTransactions
              (bool_decide (length mappedExpenses = ITEMS_PER_PAGE)
               || bool_decide (length mappedMp = ITEMS_PER_PAGE)) st in
          if reset then setTransactionsList (λ _, allTransactions) st
          else setTransactionsList (mergePage allTransactions) st
      end
  end.

(** ** Inserting expenses *)

(** [[...items, ...prev]] sorted by date, as every insert does. *)
Definition insertSorted (items prev : list Transaction) : list Transaction :=
  Array_sort by_date_desc (items ++ prev).

(** An array map whose callback reads the clock: the counter of readings is
    threaded through the elements in order. *)
Fixpoint map_clock {A B : Type} (f : A → nat → B * nat) (l : list A) (k : nat)
    : list B * nat :=
  match l with
  | [] => ([], k)
  | a :: l' =>
      let '(b, k1) := f a k in
      let '(bs, k2) := map_clock f l' k1 in
      (b :: bs, k2)
  end.

Section handlers.
Context `{Host}.

(** The label both inserts of [addManualExpense] use. *)
Definition manualLabel (st : AppState) : string :=
  if bool_decide (trim (manualDescription st) = "") then "Transaction"
  else trim (manualDescription st).

Definition manualCategoryIcon (st : AppState) : string :=
  let selectedCategory :=
    List.find (λ c, bool_decide (Some (cat_id c) = manualCategoryId st))
      categories in
  default "ShoppingBag" (nonempty (cat_icon <$> selectedCategory)).

Definition addManualExpense (session : option Remote) (st : AppState)
    : AppState :=
  let amountNumber := Number_of_string (manualAmount st) in
  if negb (isFinite amountNumber) then st
  else
    let normalized := (- abs amountNumber)%js in
    let categoryIcon := manualCategoryIcon st in
    let fallbackInsert (k : nat) : AppState * nat :=
      let newItem :=
        {| id := pretty (clock k);
           icon := categoryIcon;
           label := manualLabel st;
           amount := normalized;
           date := Some (manualDate st) |} in
      (setTransactionsList (insertSorted [newItem]) st, S k) in
    let '(st', k) :=
      match session with
      | Some remote =>
          let r :=
            insert_expense remote
              {| ins_label := manualLabel st;
                 ins_amount := normalized;
                 ins_icon := categoryIcon;
                 ins_category_id := nonempty (manualCategoryId st);
                 ins_transaction_at := Some (manualDate st) |} in
          match error r, data r with
          | None, Some row =>
              let newItem :=
                {| id := row_id row;
                   icon := default categoryIcon (nonempty (row_icon row));
                   label := row_label row;
                   amount := row_amount row;
                   date := Some (default (manualDate st) (transaction_at row)) |} in
              (setTransactionsList (insertSorted [newItem]) st, 0%nat)
          | _, _ => fallbackInsert 0%nat
          end
      | None => fallbackInsert 0%nat
      end in
    resetManualForm (clock k) st'.

(** [item.date ? new Date(item.date + 'T12:00:00') : new Date()]. *)
Definition transactionDate (item : PendingItem) (k : nat) : time * nat :=
  match nonempty (item_date item) with
  | Some d => (parseNoon d, k)
  | None => (clock k, S k)
  end.

Definition ocrTransaction (item : PendingItem) (k : nat) : Transaction * nat :=
  let '(transactionDate, k) := transactionDate item k in
  ({| id := pretty (clock k) +:+ "-" +:+ description item;
      icon := default "ShoppingBag" (nonempty (categoryIcon item));
      label := description item;
      amount := (- abs (price item))%js;
      date := Some transactionDate |}, S k).

Definition ocrInsert (item : PendingItem) (k : nat) : ExpenseInsert * nat :=
  let '(transactionDate, k) := transactionDate item k in
  ({| ins_label := description item;
      ins_amount := (- abs (price item))%js;
      ins_icon := default "ShoppingBag" (nonempty (categoryIcon item));
      ins_category_id := None;
      ins_transaction_at := Some transactionDate |}, k).

Definition savedTransaction (row : ExpenseRow) (k : nat) : Transaction * nat :=
  let '(d, k) :=
    match transaction_at row with
    | Some d => (d, k)
    | None => (clock k, S k)
    end in
  ({| id := row_id row;
      icon := default "ShoppingBag" (nonempty (row_icon row));
      label := row_label row;
      amount := row_amount row;
      date := Some d |}, k).

Definition addOcrExpenses (session : option Remote) (st : AppState)
    : AppState :=
  let '(newTransactions, k) := map_clock ocrTransaction (pendingItems st) 0 in
  let st' :=
    match session with
    | Some remote =>
        let '(inserts, k) := map_clock ocrInsert (pendingItems st) k in
        let r := insert_expenses remote inserts in
        match error r with
        | None =>
            let savedTransactions :=
              (map_clock savedTransaction (default [] (data r)) k).1 in
            setTransactionsList (insertSorted savedTransactions) st
        | Some _ => setTransactionsList (insertSorted newTransactions) st
        end
    | None => setTransactionsList (insertSorted newTransactions) st
    end in
  closeOcrModal st'.

End handlers.

(** ** Budget progress *)

Section budget.
Context `{DateAPI}.

(** The transactions of the current calendar month. *)
Definition monthTransactions (now : time) (transactionsList : list Transaction)
    : list Transaction :=
  let startOfMonth := newDate (getFullYear now) (getMonth now) 1 0 0 0 in
  let endOfMonth := newDate (getFullYear now) (getMonth now + 1) 0 23 59 59 in
  List.filter (dated_within startOfMonth endOfMonth) transactionsList.

Definition getCategorySpending (monthTransactions : list Transaction)
    (categoryIcon : string) : number :=
  abs (sum_amounts
         (List.filter
            (λ t, is_expense t && bool_decide (icon t = categoryIcon))
            monthTransactions)).

(** What one entry of the budget list displays: the width of the progress
    bar, the over-budget styling, and the amount of the warning line when
    that line is rendered. *)
Record BudgetItem := {
  spent : number;
  percentage : number;
  isOverBudget : bool;
  overBudgetBy : option number;
}.

Definition budgetProgress (spent limit : number) : BudgetItem :=
  let percentage := min (round ((spent / limit) * of_Z 100)%js) (of_Z 100) in
  let isOverBudget := (spent > limit)%js in
  {| spent := spent;
     percentage := percentage;
     isOverBudget := isOverBudget;
     overBudgetBy := if isOverBudget then Some (spent - limit)%js else None |}.

(** The callback of [budgets.map] in the budget list; [None] when the
    category of the budget is unknown and nothing is rendered. *)
Definition budgetItem (now : time) (transactionsList : list Transaction)
    (budget : Budget) : option BudgetItem :=
  category ← List.find (λ c, bool_decide (cat_id c = categoryId budget))
               categories;
  Some (budgetProgress
          (getCategorySpending (monthTransactions now transactionsList)
             (cat_icon category))
          (limit budget)).

End budget.

#[global] Instance BudgetItem_eq_dec : EqDecision BudgetItem.
Proof. solve_decision. Defined.

(** ** Deleting an expense *)

(** [deleteExpense]: the ledger is filtered first; the remote delete, when a
    session exists, is best effort: [remote_delete] is the error it may
    answer with, which is only logged. *)
Definition deleteExpense (remote_delete : option (string → option string))
    (expenseId : string) (st : AppState) : AppState :=
  let st' :=
    setTransactionsList
      (List.filter (λ item, negb (bool_decide (id item = expenseId)))) st in
  match remote_delete with
  | Some delete =>
      match delete expenseId with
      | Some _ => st'
      | None => st'
      end
  | None => st'
  end.

(** ** Pagination *)

(** The ledger together with the in-flight flag of [loadMoreTransactions]. *)
Record Paging := {
  app : AppState;
  isLoadingMore : bool;
}.

Definition loadMoreTransactions (session : option Remote) (p : Paging) : Paging :=
  if isLoadingMore p || negb (hasMoreTransactions (app p)) then p
  else {| app := loadTransactions session false (app p);
          isLoadingMore := false |}.

(** ** Budgets *)

Definition saveBudget (categoryId' : string) (limit' : number)
    (prev : list Budget) : list Budget :=
  match list_find (λ b, categoryId b = categoryId') prev with
  | Some (existing, _) =>
      <[existing := {| categoryId := categoryId'; limit := limit' |}]> prev
  | None => prev ++ [{| categoryId := categoryId'; limit := limit' |}]
  end.

Definition removeBudget (categoryId' : string) (prev : list Budget)
    : list Budget :=
  List.filter (λ b, negb (bool_decide (categoryId b = categoryId'))) prev.

Definition getBudgetForCategory (budgets : list Budget) (categoryId' : string)
    : option Budget :=
  List.find (λ b, bool_decide (categoryId b = categoryId')) budgets.

(** The handler of the "Save Budget" button, [limit'] being
    [parseFloat(budgetLimitInput)]: the budget is saved when the limit is
    finite and positive, and refused with an alert otherwise. *)
Definition submitBudget (editingBudgetCategoryId : string) (limit' : number)
    (budgets : list Budget) : list Budget :=
  if isFinite limit' && (limit' > zero)%js
  then saveBudget editingBudgetCategoryId limit' budgets
  else budgets.

(** ** Amount input *)

Definition is_digit (c : ascii) : bool :=
  let n := nat_of_ascii c in bool_decide (48 ≤ n ≤ 57)%nat.

(** The class [\w] of regular expressions. *)
Definition is_word (c : ascii) : bool :=
  let n := nat_of_ascii c in
  bool_decide ((48 ≤ n ≤ 57) ∨ (65 ≤ n ≤ 90) ∨ (97 ≤ n ≤ 122) ∨ n = 95)%nat.

(** [s.split(c)]: the pieces of [s] between the occurrences of [c]. *)
Fixpoint split_on (c : ascii) (s : string) : list string :=
  match s with
  | EmptyString => [EmptyString]
  | String x s' =>
      if bool_decide (x = c) then EmptyString :: split_on c s'
      else match split_on c s' with
           | piece :: pieces => String x piece :: pieces
           | [] => [String x EmptyString]
           end
  end.

(** The number of digits [s] starts with. *)
Fixpoint digit_run (s : string) : nat :=
  match s with
  | String c s' => if is_digit c then S (digit_run s') else 0%nat
  | EmptyString => 0%nat
  end.

(** The lookahead [(?=(\d{3})+(?!\d))]: the digits ahead form whole groups
    of three. *)
Definition groups_of_three_ahead (s : string) : bool :=
  let n := digit_run s in
  negb (bool_decide (n = 0%nat)) && bool_decide (n `mod` 3 = 0)%nat.

(** The assertion [\B] between the character [prev] (if any) and the
    character [next] (if any): both are word characters or neither is. *)
Definition not_word_boundary (prev next : option ascii) : bool :=
  Bool.eqb (from_option is_word false prev) (from_option is_word false next).

(** [s.replace(/\B(?=(\d{3})+(?!\d))/g, ',')], [prev] being the character
    before [s]. *)
Fixpoint insert_separators (prev : option ascii) (s : string) : string :=
  match s with
  | EmptyString => EmptyString
  | String c s' =>
      let rest := String c (insert_separators (Some c) s') in
      if not_word_boundary prev (Some c) && groups_of_three_ahead s
      then String "," rest else rest
  end.

(** Format input amount with thousand separators for display. *)
Definition formatAmountInput (value : string) : string :=
  if bool_decide (value = "") then ""
  else
    let parts := split_on "." value in
    let intPart := insert_separators None (default "" (head parts)) in
    match parts with
    | [_; fraction] => intPart +:+ "." +:+ fraction
    | _ => intPart
    end.

(** [s.replace(/,/g, '')]. *)
Fixpoint remove_commas (s : string) : string :=
  match s with
  | EmptyString => EmptyString
  | String c s' =>
      if bool_decide (c = ","%char) then remove_commas s'
      else String c (remove_commas s')
  end.

(** Parse formatted amount back to number string. *)
Definition parseAmountInput (value : string) : string := remove_commas value.

(** ** Monthly trends *)

Record MonthlyData := {
  month : option string;
  year : Z;
  monthIndex : Z;
  expenses : number;
  income : number;
  md_transactionCount : Z;
}.

Definition monthNames : list string :=
  ["Jan"; "Feb"; "Mar"; "Apr"; "May"; "Jun";
   "Jul"; "Aug"; "Sep"; "Oct"; "Nov"; "Dec"].

(** [t.amount > 0]. *)
Definition is_income (t : Transaction) : bool := (amount t > zero)%js.

Section monthly.
Context `{DateAPI}.

(** The body of the loop of [getMonthlySpendingData] for the month [i]
    months back; [month] is [None] where [monthNames[...]] is undefined. *)
Definition monthlyEntry (now : time) (transactions : list Transaction) (i : Z)
    : MonthlyData :=
  let targetDate := newDate (getFullYear now) (getMonth now - i) 1 0 0 0 in
  let startOfMonth :=
    newDate (getFullYear targetDate) (getMonth targetDate) 1 0 0 0 in
  let endOfMonth :=
    newDate (getFullYear targetDate) (getMonth targetDate + 1) 0 23 59 59 in
  let monthTx := List.filter (dated_within startOfMonth endOfMonth) transactions in
  {| month := if bool_decide (0 <= getMonth targetDate)
              then monthNames !! Z.to_nat (getMonth targetDate) else None;
     year := getFullYear targetDate;
     monthIndex := getMonth targetDate;
     expenses := abs (sum_amounts (List.filter is_expense monthTx));
     income := sum_amounts (List.filter is_income monthTx);
     md_transactionCount := Z.of_nat (length monthTx) |}.

(** The loop [for (let i = monthsBack - 1; i >= 0; i--)], [n] rounds left. *)
Fixpoint monthlyLoop (now : time) (transactions : list Transaction) (n : nat)
    : list MonthlyData :=
  match n with
  | O => []
  | S n' => monthlyEntry now transactions (Z.of_nat n')
            :: monthlyLoop now transactions n'
  end.

Definition getMonthlySpendingData (now : time) (transactions : list Transaction)
    (monthsBack : Z) : list MonthlyData :=
  monthlyLoop now transactions (Z.to_nat monthsBack).

End monthly.

(** ** Overview figures *)

(** [monthIncome > 0 ? Math.min(Math.round((monthExpenses / monthIncome) * 100), 100) : 0]. *)
Definition spendingRatio (monthIncome monthExpenses : number) : number :=
  if (monthIncome > zero)%js
  then min (round ((monthExpenses / monthIncome) * of_Z 100)%js) (of_Z 100)
  else zero.

(** [monthIncome > 0 ? Math.max(100 - spendingRatio, 0) : 0]. *)
Definition savingsRate (monthIncome monthExpenses : number) : number :=
  if (monthIncome > zero)%js
  then max (of_Z 100 - spendingRatio monthIncome monthExpenses)%js zero
  else zero.

(** The income and the expenses of the month the overview computes the two
    rates from. *)
Definition monthIncome (monthTransactions : list Transaction) : number :=
  sum_amounts (List.filter is_income monthTransactions).

Definition monthExpenses (monthTransactions : list Transaction) : number :=
  abs (sum_amounts (List.filter is_expense monthTransactions)).

(** ** Password strength *)

Record PasswordChecks := {
  chk_length : bool;
  chk_lowercase : bool;
  chk_uppercase : bool;
  chk_numbers : bool;
  chk_special : bool;
}.

(** [regexp.test(s)] for a one-character class. *)
Fixpoint has_char (class : ascii → bool) (s : string) : bool :=
  match s with
  | EmptyString => false
  | String c s' => class c || has_char class s'
  end.

Definition is_lower (c : ascii) : bool :=
  let n := nat_of_ascii c in bool_decide (97 ≤ n ≤ 122)%nat.

Definition is_upper (c : ascii) : bool :=
  let n := nat_of_ascii c in bool_decide (65 ≤ n ≤ 90)%nat.

(** The double quote character. *)
Definition double_quote : ascii := ascii_of_nat 34.

(** The class of the special characters of the password check. *)
Definition is_special (c : ascii) : bool :=
  bool_decide (c ∈ ["!"; "@"; "#"; "$"; "%"; "^"; "&"; "*"; "("; ")"; ",";
                    "."; "?"; ":"; "{"; "}"; "|"; "<"; ">"]%char
               ∨ c = double_quote).

Definition passwordChecks (password : string) : PasswordChecks :=
  {| chk_length := bool_decide (8 ≤ String.length password)%nat;
     chk_lowercase := has_char is_lower password;
     chk_uppercase := has_char is_upper password;
     chk_numbers := has_char is_digit password;
     chk_special := has_char is_special password |}.

Record PasswordStrength := {
  score : Z;
  strength_label : string;
  strength_color : string;
  checks : PasswordChecks;
}.

Definition getPasswordStrength (password : string) : PasswordStrength :=
  let emptyChecks :=
    {| chk_length := false; chk_lowercase := false; chk_uppercase := false;
       chk_numbers := false; chk_special := false |} in
  if bool_decide (password = "")
  then {| score := 0; strength_label := ""; strength_color := "#e0e0e0";
          checks := emptyChecks |}
  else
    let checks := passwordChecks password in
    let score := 0 in
    let score := if chk_length checks then score + 1 else score in
    let score := if chk_lowercase checks then score + 1 else score in
    let score := if chk_uppercase checks then score + 1 else score in
    let score := if chk_numbers checks then score + 1 else score in
    let score := if chk_special checks then score + 1 else score in
    if score <=? 1
    then {| score := 1; strength_label := "Very Weak";
            strength_color := "#c73c3c"; checks := checks |}
    else if score =? 2
    then {| score := 2; strength_label := "Weak";
            strength_color := "#e67e22"; checks := checks |}
    else if score =? 3
    then {| score := 3; strength_label := "Medium";
            strength_color := "#f1c40f"; checks := checks |}
    else if score =? 4
    then {| score := 4; strength_label := "Strong";
            strength_color := "#27ae60"; checks := checks |}
    else {| score := 5; strength_label := "Very Strong";
            strength_color := "#1f6f4d"; checks := checks |}.

(** ** Capturing a receipt *)

(** One element of the [items] array of the parsed answer; [raw_price] is
    [Number(item.price)]. *)
Record RawItem := {
  raw_description : option string;
  raw_price : number;
  raw_category : option string;
}.

(** [categoryMapping[k]] taken as a condition: an own key, or a name
    inherited from [Object.prototype]. *)
Definition answers_for {V} (o : Obj.t V) (k : string) : bool :=
  bool_decide (is_Some (Obj.get o k)) || Obj.inherited k.

(** The callback of [items.map] in [scanReceiptWithGemini]; the icon of a
    category that is only an inherited name is undefined. *)
Definition stageItem (now : time) (index : nat) (item : RawItem) : PendingItem :=
  let categoryId :=
    match nonempty (raw_category item) with
    | Some c => if answers_for categoryMapping c then c else "miscellaneous-other"
    | None => "miscellaneous-other"
    end in
  {| item_id := "ocr-" +:+ pretty now +:+ "-" +:+ pretty index;
     description := default "Item" (nonempty (raw_description item));
     price := if truthy (raw_price item) then raw_price item else zero;
     item_date := None;
     category := Some categoryId;
     categoryIcon := fst <$> Obj.get categoryMapping categoryId |}.

(** What [scanReceiptWithGemini] resolves to, or the message of the error
    it (or reading the file) throws. *)
Inductive ScanOutcome :=
  | Scanned (receiptDate : option string) (items : list PendingItem)
  | ScanFailed (message : string).

(** The part of the component state the capture of a receipt touches. *)
Record OcrState := {
  ocr_pendingItems : list PendingItem;
  ocrError : option string;
  isOcrLoading : bool;
  ocr_modalVisible : bool;
  isSettingsModalVisible : bool;
}.

Definition withDate (receiptDate : option string) (item : PendingItem)
    : PendingItem :=
  {| item_id := item_id item; description := description item;
     price := price item; item_date := receiptDate;
     category := category item; categoryIcon := categoryIcon item |}.

(** [handleFileUpload]: [file] tells whether a file was selected, [outcome]
    is what the scan comes to once it is started. *)
Definition handleFileUpload (file : bool) (geminiApiKey : string)
    (outcome : ScanOutcome) (s : OcrState) : OcrState :=
  if negb file then s
  else if bool_decide (geminiApiKey = "")
  then {| ocr_pendingItems := ocr_pendingItems s; ocrError := ocrError s;
          isOcrLoading := isOcrLoading s;
          ocr_modalVisible := ocr_modalVisible s;
          isSettingsModalVisible := true |}
  else
    match outcome with
    | Scanned receiptDate items =>
        if bool_decide (0 < length items)%nat
        then {| ocr_pendingItems := withDate receiptDate <$> items;
                ocrError := None; isOcrLoading := false;
                ocr_modalVisible := true;
                isSettingsModalVisible := isSettingsModalVisible s |}
        else {| ocr_pendingItems := [];
                ocrError :=
                  Some "No items detected. Try uploading a clearer image.";
                isOcrLoading := false; ocr_modalVisible := true;
                isSettingsModalVisible := isSettingsModalVisible s |}
    | ScanFailed message =>
        {| ocr_pendingItems := [];
           ocrError :=
             Some (if bool_decide (message = "") then "Unable to parse receipt."
                   else message);
           isOcrLoading := false; ocr_modalVisible := true;
           isSettingsModalVisible := isSettingsModalVisible s |}
    end.

(** * Vocabulary of the properties *)

(** [0 <= x], which excludes [NaN]. *)
Definition nonneg (x : number) : Prop :=
  match x with
  | Fin q => (0 <= q)%Qc
  | PosInf => True
  | _ => False
  end.

(** [x <= 0], which excludes [NaN]. *)
Definition nonpos (x : number) : Prop :=
  match x with
  | Fin q => (q <= 0)%Qc
  | NegInf => True
  | _ => False
  end.

(** Non-increasing time keys: an undated entry counts as time [0]. *)
Definition newest_first (a b : Transaction) : Prop := time_key b <= time_key a.

(** The sum of the absolute amounts of a list of transactions. *)
Definition sum_abs (l : list Transaction) : number :=
  foldl (λ sum t, (sum + abs (amount t))%js) zero l.

(** The range offset [loadTransactions] queries both sources with. *)
Definition load_offset (reset : bool) (st : AppState) : nat :=
  if reset then 0%nat else length (transactionsList st).

(** The mapped records of the page each source returned. *)
Definition expensesPage (remote : Remote) (reset : bool) (st : AppState)
    : list Transaction :=
  mapExpense <$> default [] (data (select_expenses remote (load_offset reset st))).

Definition mpPage (remote : Remote) (reset : bool) (st : AppState)
    : list Transaction :=
  mapMp <$> default [] (data (select_transactions remote (load_offset reset st))).

Definition full_page (page : list Transaction) : Prop :=
  length page = ITEMS_PER_PAGE.

(** The load goes through: a session exists and the query of the manual
    expenses reports no error. *)
Definition load_succeeds (session : option Remote) (reset : bool)
    (st : AppState) : Prop :=
  ∃ remote, session = Some remote
            ∧ error (select_expenses remote (load_offset reset st)) = None.

(** The contract of the remote inserts: a successful insert answers with the
    persisted records, one per record sent, label and amount as sent. *)
Definition persisted (ins : ExpenseInsert) (row : ExpenseRow) : Prop :=
  row_label row = ins_label ins ∧ row_amount row = ins_amount ins.

Definition insert_contract (remote : Remote) : Prop :=
  (∀ ins row,
     error (insert_expense remote ins) = None →
     data (insert_expense remote ins) = Some row → persisted ins row)
  ∧ (∀ inss,
       error (insert_expenses remote inss) = None →
       ∃ rows, data (insert_expenses remote inss) = Some rows
               ∧ Forall2 persisted inss rows).

Definition session_contract (session : option Remote) : Prop :=
  ∀ remote, session = Some remote → insert_contract remote.

(** A staged receipt item and the ledger transaction it is committed as. *)
Definition committed_as (item : PendingItem) (t : Transaction) : Prop :=
  label t = description item ∧ amount t = (- abs (price item))%js.

(** The sample host and the sample data of the worked examples. *)
Module Sample.

(** A host whose clock stands still within a handler and whose [Number]
    reads the two amounts typed in the examples. *)
Definition host : Host :=
  {| clock := λ _, 1700000000000;
     parseNoon := λ _, 1709208000000;
     Number_of_string := λ s,
       if bool_decide (s = "12.50") then dec 125 1
       else if bool_decide (s = "0") then zero
       else NaN |}.

Definition tx (i l ic : string) (a : number) (d : option time) : Transaction :=
  {| id := i; label := l; icon := ic; amount := a; date := d |}.

Definition state (l : list Transaction) (p : list PendingItem) (amt : string)
    : AppState :=
  {| transactionsList := l; hasMoreTransactions := true; pendingItems := p;
     isOcrModalVisible := true; isManualModalVisible := true;
     manualDescription := " Lunch "; manualAmount := amt;
     manualCategoryId := Some "food-dining"; manualDate := 1709164800000;
     isCategoryPickerOpen := false; isDatePickerVisible := false |}.

Definition item (d : string) (p : number) : PendingItem :=
  {| item_id := "ocr-1700000000000-0"; description := d; price := p;
     item_date := None; category := Some "food-dining";
     categoryIcon := Some "Coffee" |}.

Definition mp (i : string) (ty : option string) (a : number) : MpRow :=
  {| mp_id := i; email_subject := None; mp_description := Some "Cafe";
     mp_amount := a; mp_type := ty; mp_category := None;
     received_at := Some 1709164800000 |}.

Definition expense (i : string) (a : number) (d : option time) : ExpenseRow :=
  {| row_id := i; row_label := "Groceries"; row_amount := a;
     row_icon := None; transaction_at := d |}.

Definition persist (n : nat) (ins : ExpenseInsert) : ExpenseRow :=
  {| row_id := pretty n; row_label := ins_label ins;
     row_amount := ins_amount ins; row_icon := Some (ins_icon ins);
     transaction_at := ins_transaction_at ins |}.

(** A remote that serves the given pages and persists what it is sent. *)
Definition remote (es : list ExpenseRow) (ms : list MpRow) : Remote :=
  {| select_expenses := λ _, {| data := Some es; error := None |};
     select_transactions := λ _, {| data := Some ms; error := None |};
     insert_expense := λ ins,
       {| data := Some (persist 100 ins); error := None |};
     insert_expenses := λ inss,
       {| data := Some (imap (λ i, persist (101 + i)) inss); error := None |} |}.

(** A remote out of reach: every query reports an error. *)
Definition offline : Remote :=
  {| select_expenses := λ _, {| data := None; error := Some "Failed to fetch" |};
     select_transactions := λ _, {| data := None; error := Some "Failed to fetch" |};
     insert_expense := λ _, {| data := None; error := Some "Failed to fetch" |};
     insert_expenses := λ _, {| data := None; error := Some "Failed to fetch" |} |}.

End Sample.

Section commit_vocabulary.
Context `{Host}.

(** The transactions [addOcrExpenses] builds from the staged items for the
    local insert, and the records it sends to the remote store. *)
Definition localItems (st : AppState) : list Transaction :=
  (map_clock ocrTransaction (pendingItems st) 0).1.

Definition ocrPayload (st : AppState) : list ExpenseInsert :=
  (map_clock ocrInsert (pendingItems st)
     (map_clock ocrTransaction (pendingItems st) 0).2).1.

(** The remote path of the commit goes through. *)
Definition commit_persisted (session : option Remote) (st : AppState) : Prop :=
  ∃ remote, session = Some remote
            ∧ error (insert_expenses remote (ocrPayload st)) = None.
End commit_vocabulary.

Section analytics_vocabulary.
Context `{DateAPI}.

(** The expenses dated within the calendar month that lies [back] months
    before the month of [now]. *)
Definition month_expenses (now : time) (back : Z)
    (transactions : list Transaction) : list Transaction :=
  List.filter
    (λ t, dated_within
            (newDate (getFullYear now) (getMonth now - back) 1 0 0 0)
            (newDate (getFullYear now) (getMonth now - back + 1) 0 23 59 59) t
          && is_expense t)
    transactions.

End analytics_vocabulary.







(** * Vocabulary of the further properties *)

(** The contract of the two sources on one page: within a collection the
    record ids are unique, and the id of a manual expense does not carry the
    prefix the message-derived ids are given. *)
Definition page_contract (es : list ExpenseRow) (ms : list MpRow) : Prop :=
  NoDup (row_id <$> es)
  ∧ NoDup (mp_id <$> ms)
  ∧ Forall (λ e, String.prefix "mp_" (row_id e) = false) es.

(** A budget the "Save Budget" button accepts: a finite, positive limit. *)
Definition valid_budget (b : Budget) : Prop :=
  isFinite (limit b) = true ∧ (limit b > zero)%js = true.

(** The string holds no comma. *)
Definition comma_free (s : string) : Prop := remove_commas s = s.

(** The number of occurrences of the character [c] in [s]. *)
Fixpoint count_char (c : ascii) (s : string) : nat :=
  match s with
  | EmptyString => 0%nat
  | String x s' => if bool_decide (x = c) then S (count_char c s')
                   else count_char c s'
  end.

(** [pieces.join(c)]. *)
Fixpoint join_on (c : ascii) (pieces : list string) : string :=
  match pieces with
  | [] => EmptyString
  | [piece] => piece
  | piece :: pieces' => piece +:+ String c (join_on c pieces')
  end.

Section monthly_vocabulary.
Context `{DateAPI}.

(** The host calendar is coherent at the month [back] months before
    [now]: rebuilding the first day of that month from its own year and
    month gives the same instant, and its last second is the one
    [getMonthComparison] builds from [now]. *)
Definition calendar_coherent (now : time) (back : Z) : Prop :=
  let targetDate := newDate (getFullYear now) (getMonth now - back) 1 0 0 0 in
  newDate (getFullYear targetDate) (getMonth targetDate) 1 0 0 0 = targetDate
  ∧ newDate (getFullYear targetDate) (getMonth targetDate + 1) 0 23 59 59
    = newDate (getFullYear now) (getMonth now - back + 1) 0 23 59 59.
End monthly_vocabulary.

(** The number of checks a password passes. *)
Definition passed_checks (c : PasswordChecks) : Z :=
  Z.b2z (chk_length c) + Z.b2z (chk_lowercase c) + Z.b2z (chk_uppercase c)
  + Z.b2z (chk_numbers c) + Z.b2z (chk_special c).

(** * Properties *)

(** ** Numbers *)

(** Closed equations between numbers are settled by evaluation. *)
Ltac compute_eq := by apply (bool_decide_unpack _); vm_compute.

Lemma zero_eq : zero = Fin 0%Qc.
Proof. unfold zero, of_Z. by rewrite Z2Qc_inj_0. Qed.

Lemma nonneg_zero : nonneg zero.
Proof. rewrite zero_eq. simpl. done. Qed.

Lemma nonpos_zero : nonpos zero.
Proof. rewrite zero_eq. simpl. done. Qed.

Lemma lt_zero_nonpos x : (x < zero)%js = true → nonpos x.
Proof.
  rewrite zero_eq. destruct x; simpl; try done.
  intros Hq%bool_decide_eq_true. by apply Qclt_le_weak.
Qed.

Lemma lt_zero_not_zero x : (x < zero)%js = true → x ≠ zero.
Proof.
  rewrite zero_eq. destruct x; simpl; try done.
  intros Hq%bool_decide_eq_true [= ->]. by apply (Qclt_not_eq _ _ Hq).
Qed.

Lemma nonneg_abs x : x ≠ NaN → nonneg (abs x).
Proof. destruct x; simpl; try done. intros _. apply Qcabs_nonneg. Qed.

Lemma nonneg_abs_expense x : (x < zero)%js = true → nonneg (abs x).
Proof. intros Hx. apply nonneg_abs. by destruct x. Qed.

Lemma nonneg_add x y : nonneg x → nonneg y → nonneg (x + y)%js.
Proof.
  destruct x, y; simpl; try done. apply Qcplus_nonneg_nonneg.
Qed.

Lemma nonpos_add x y : nonpos x → nonpos y → nonpos (x + y)%js.
Proof.
  destruct x as [a| | |], y as [b| | |]; simpl; try done. intros Ha Hb.
  replace 0%Qc with (0 + 0)%Qc by ring. by apply Qcplus_le_compat.
Qed.

Lemma abs_add_nonpos x y :
  nonpos x → nonpos y → abs (x + y)%js = (abs x + abs y)%js.
Proof.
  destruct x as [a| | |], y as [b| | |]; simpl; try done. intros Ha Hb.
  rewrite !Qcabs_neg; [f_equal; ring|done..|].
  replace 0%Qc with (0 + 0)%Qc by ring. by apply Qcplus_le_compat.
Qed.

Lemma abs_zero : abs zero = zero.
Proof. compute_eq. Qed.

Lemma nonneg_not_gt_zero x : nonneg x → (x > zero)%js = false → x = zero.
Proof.
  rewrite zero_eq. destruct x as [q| | |]; simpl; try done.
  intros Hq Hgt%bool_decide_eq_false. f_equal.
  apply Qcle_antisym; [by apply Qcnot_lt_le|done].
Qed.

Lemma lt_zero_irrefl : (zero < zero)%js = false.
Proof. by vm_compute. Qed.




(** ** Sorting *)

Section sort_facts.
Context {A R : Type} `{CompareResult R} (comparefn : A → A → R).

Lemma sort_insert_Permutation x l : sort_insert comparefn x l ≡ₚ x :: l.
Proof.
  induction l as [|y l IH]; simpl; [done|].
  destruct (not_positive _); [done|]. rewrite IH. apply Permutation_swap.
Qed.

Lemma Array_sort_Permutation l : Array_sort comparefn l ≡ₚ l.
Proof.
  induction l as [|x l IH]; simpl; [done|].
  by rewrite sort_insert_Permutation, IH.
Qed.


Lemma elem_of_Array_sort x l : x ∈ Array_sort comparefn l ↔ x ∈ l.
Proof. by rewrite Array_sort_Permutation. Qed.

(** The sort orders its input by any transitive relation [Rel] that the
    comparison function decides, totally, on the elements at hand. *)
Context (P : A → Prop) (Rel : relation A).
Hypothesis Rel_trans : ∀ a b c, Rel a b → Rel b c → Rel a c.
Hypothesis Rel_first : ∀ a b,
  P a → P b → not_positive (comparefn a b) = true → Rel a b.
Hypothesis Rel_second : ∀ a b,
  P a → P b → not_positive (comparefn a b) = false → Rel b a.

Lemma sort_insert_sorted x l :
  P x → Forall P l → StronglySorted Rel l →
  StronglySorted Rel (sort_insert comparefn x l).
Proof.
  intros Hx. induction l as [|y l IH]; simpl; intros HP Hl.
  - repeat constructor.
  - apply Forall_cons in HP as [Hy HP].
    apply StronglySorted_cons in Hl as [Hyl Hl].
    destruct (not_positive (comparefn x y)) eqn:Hc.
    + apply StronglySorted_cons. split; [|by apply StronglySorted_cons].
      constructor; [by apply Rel_first|].
      eapply Forall_impl; [done|]. intros z Hz.
      eapply Rel_trans; [by apply Rel_first|done].
    + apply StronglySorted_cons. split; [|by apply IH].
      rewrite sort_insert_Permutation. constructor; [by apply Rel_second|done].
Qed.

Lemma Array_sort_sorted l :
  Forall P l → StronglySorted Rel (Array_sort comparefn l).
Proof.
  induction l as [|x l IH]; simpl; intros HP.
  - constructor.
  - apply Forall_cons in HP as [Hx HP].
    apply sort_insert_sorted; [done| |by apply IH].
    by rewrite Array_sort_Permutation.
Qed.
End sort_facts.

Lemma by_date_desc_sorted l :
  StronglySorted newest_first (Array_sort by_date_desc l).
Proof.
  apply (Array_sort_sorted by_date_desc (λ _, True)).
  - unfold newest_first. intros a b c ??. lia.
  - unfold newest_first, by_date_desc, not_positive, compare_Z. intros a b _ _ ?. lia.
  - unfold newest_first, by_date_desc, not_positive, compare_Z. intros a b _ _ ?. lia.
  - by apply Forall_true.
Qed.

(** ** Mapping the message-derived records *)

(** The sign of a mapped amount is decided by [isOutgoing] alone. *)
Lemma mapMp_amount row :
  amount (mapMp row)
  = if isOutgoing row then (- abs (mp_amount row))%js else abs (mp_amount row).
Proof. reflexivity. Qed.

Lemma mapMp_outgoing_not_positive row :
  isOutgoing row = true → (amount (mapMp row) > zero)%js = false.
Proof.
  intros Hout. rewrite mapMp_amount, Hout, zero_eq.
  destruct (mp_amount row) as [q| | |]; simpl; try done.
  apply bool_decide_eq_false, Qcle_not_lt.
  rewrite <-(Qcopp_involutive 0). apply Qcopp_le_compat.
  replace (- 0)%Qc with 0%Qc by ring. apply Qcabs_nonneg.
Qed.

Lemma mapMp_incoming_not_negative row :
  isOutgoing row = false → (amount (mapMp row) < zero)%js = false.
Proof.
  intros Hout. rewrite mapMp_amount, Hout, zero_eq.
  destruct (mp_amount row) as [q| | |]; simpl; try done.
  apply bool_decide_eq_false, Qcle_not_lt, Qcabs_nonneg.
Qed.

Example payment_sent_mapped :
  amount (mapMp (Sample.mp "1" (Some "payment_sent") (of_Z 10))) = of_Z (-10)
  ∧ label (mapMp (Sample.mp "1" (Some "payment_sent") (of_Z 10))) = "Cafe"
  ∧ id (mapMp (Sample.mp "1" (Some "payment_sent") (of_Z 10))) = "mp_1".
Proof. split; [compute_eq|done]. Qed.

Example refund_deposit_mapped :
  amount (mapMp (Sample.mp "2" (Some "refund_received") (of_Z (-10)))) = of_Z 10
  ∧ amount (mapMp (Sample.mp "3" (Some "deposit") (of_Z 10))) = of_Z 10
  ∧ amount (mapMp (Sample.mp "4" (Some "transfer_received") (of_Z 10))) = of_Z 10.
Proof. repeat split; compute_eq. Qed.

(** C1: the sign of a message-derived amount is forced from the type, the
    keyword and the subject of the record, so that incoming types map to a
    positive amount.  The code does not do so for the incoming type
    "payment_received": the type contains the word "payment", the record is
    classified as outgoing, and a stored amount of 10 is mapped to -10. *)
Theorem payment_received_mapped_negative :
  let row := Sample.mp "1" (Some "payment_received") (of_Z 10) in
  Obj.get transactionTypeLabels "payment_received" = Some ("Pago recibido", "Cobro")
  ∧ isOutgoing row = true
  ∧ amount (mapMp row) = of_Z (-10)
  ∧ (amount (mapMp row) < zero)%js = true.
Proof. repeat split; compute_eq. Qed.

(** ** Unique ids *)

Lemma mergePage_ids all prev :
  NoDup (id <$> prev) → NoDup (id <$> all) → NoDup (id <$> mergePage all prev).
Proof.
  intros Hprev Hall. unfold mergePage.
  rewrite Array_sort_Permutation, fmap_app. apply NoDup_app. split_and!.
  - done.
  - intros i Hi [t [-> Ht]]%list_elem_of_fmap.
    apply list_elem_of_In, filter_In in Ht as [_ Ht].
    apply negb_true_iff, bool_decide_eq_false in Ht. done.
  - induction all as [|t all IH]; simpl; [constructor|].
    apply NoDup_cons in Hall as [Ht Hall].
    destruct (negb _); simpl; [|by apply IH].
    apply NoDup_cons. split; [|by apply IH].
    intros [t' [Hid Ht']]%list_elem_of_fmap. apply Ht.
    apply list_elem_of_In, filter_In in Ht' as [Ht' _].
    apply list_elem_of_fmap. exists t'. split; [done|by apply list_elem_of_In].
Qed.

(** C2: ids are unique within the ledger after every merge and every insert,
    the local fallback of the receipt commit included.  The code breaks this
    on a receipt that lists the same description twice: both transactions
    are given the id made of the clock reading and the description, and the
    clock does not advance between two rounds of the array map. *)
Theorem ocr_commit_duplicate_ids :
  let st :=
    Sample.state [Sample.tx "1" "Rent" "Home" (of_Z (-50)) None]
      [Sample.item "Coffee" (dec 45 1); Sample.item "Coffee" (dec 45 1)] "" in
  let st' := @addOcrExpenses Sample.host None st in
  NoDup (id <$> transactionsList st)
  ∧ id <$> transactionsList st'
    = ["1700000000000-Coffee"; "1700000000000-Coffee"; "1"]
  ∧ ¬ NoDup (id <$> transactionsList st')
  ∧ @addOcrExpenses Sample.host (Some Sample.offline) st = st'.
Proof.
  split_and!.
  - by apply (bool_decide_unpack _).
  - by vm_compute.
  - by apply (bool_decide_unpack _).
  - by vm_compute.
Qed.

(** ** Ordering of the ledger *)


Lemma loadTransactions_success remote reset st :
  error (select_expenses remote (load_offset reset st)) = None →
  loadTransactions (Some remote) reset st
  = let all := Array_sort by_date_desc
                 (expensesPage remote reset st ++ mpPage remote reset st) in
    setTransactionsList (if reset then λ _, all else mergePage all)
      (setHasMoreTransactions
         (bool_decide (length (expensesPage remote reset st) = ITEMS_PER_PAGE)
          || bool_decide (length (mpPage remote reset st) = ITEMS_PER_PAGE)) st).
Proof.
  unfold loadTransactions, expensesPage, mpPage, load_offset.
  intros ->. by destruct reset.
Qed.

Lemma loadTransactions_failure session reset st :
  ¬ load_succeeds session reset st → loadTransactions session reset st = st.
Proof.
  unfold load_succeeds, loadTransactions, load_offset. intros Hfail.
  destruct session as [remote|]; [|done].
  destruct (error (select_expenses remote _)) eqn:Herr; [done|].
  destruct Hfail. eauto.
Qed.



(** ** Pagination *)

(** C5, as stated: after [loadTransactions], [hasMoreTransactions] holds iff
    one of the two sources returned a full page.  It fails when the query
    of the manual expenses reports an error: the flag keeps its value. *)
Lemma hasMore_stale_on_error :
  let st := Sample.state [] [] "" in
  let st' := loadTransactions (Some Sample.offline) true st in
  hasMoreTransactions st' = true
  ∧ ¬ (full_page (expensesPage Sample.offline true st)
       ∨ full_page (mpPage Sample.offline true st)).
Proof.
  split; [reflexivity|]. unfold full_page. simpl. intros [?|?]; discriminate.
Qed.

(** C5, amended: when the load goes through, [hasMoreTransactions] holds
    afterwards iff one of the two sources returned a full page of 25 mapped
    records; otherwise the flag is left as it was. *)
Theorem hasMore_iff_full_page session reset st :
  let st' := loadTransactions session reset st in
  (∀ remote,
     session = Some remote →
     error (select_expenses remote (load_offset reset st)) = None →
     hasMoreTransactions st' = true
     ↔ full_page (expensesPage remote reset st)
       ∨ full_page (mpPage remote reset st))
  ∧ (¬ load_succeeds session reset st →
     hasMoreTransactions st' = hasMoreTransactions st).
Proof.
  split.
  - intros remote -> Herr. rewrite loadTransactions_success by done.
    unfold full_page. destruct reset; simpl;
      rewrite orb_true_iff, !bool_decide_eq_true; done.
  - intros Hfail. by rewrite loadTransactions_failure.
Qed.

Lemma hasMore_iff_full_page_witness :
  let remote := Sample.remote
                  (replicate 25 (Sample.expense "7" (of_Z (-50)) None))
                  (replicate 10 (Sample.mp "1" (Some "payment_sent") (of_Z 10))) in
  let st := Sample.state [] [] "" in
  length (expensesPage remote true st) = 25%nat
  ∧ length (mpPage remote true st) = 10%nat
  ∧ hasMoreTransactions (loadTransactions (Some remote) true st) = true.
Proof.
  split_and!; [reflexivity..|].
  apply (proj1 (hasMore_iff_full_page
                  (Some (Sample.remote
                     (replicate 25 (Sample.expense "7" (of_Z (-50)) None))
                     (replicate 10
                        (Sample.mp "1" (Some "payment_sent") (of_Z 10)))))
                  true (Sample.state [] [] "")) _ eq_refl eq_refl).
  left. reflexivity.
Defined.

(** ** Sums of expenses *)

Lemma sum_amounts_expenses_from acc l :
  nonpos acc → Forall (λ t, is_expense t = true) l →
  nonpos (foldl (λ sum t, (sum + amount t)%js) acc l)
  ∧ abs (foldl (λ sum t, (sum + amount t)%js) acc l)
    = foldl (λ sum t, (sum + abs (amount t))%js) (abs acc) l.
Proof.
  intros Hacc Hl. revert acc Hacc.
  induction Hl as [|t l Ht Hl IH]; simpl; intros acc Hacc; [done|].
  apply lt_zero_nonpos in Ht.
  rewrite <-abs_add_nonpos by done. apply IH. by apply nonpos_add.
Qed.

(** The absolute value of a sum of expenses is the sum of their absolute
    amounts. *)
Lemma abs_sum_expenses l :
  Forall (λ t, is_expense t = true) l → abs (sum_amounts l) = sum_abs l.
Proof.
  intros Hl. unfold sum_amounts, sum_abs.
  rewrite <-abs_zero at 2. by apply sum_amounts_expenses_from, Hl; apply nonpos_zero.
Qed.

Lemma sum_abs_from_nonneg acc l :
  nonneg acc → Forall (λ t, is_expense t = true) l →
  nonneg (foldl (λ sum t, (sum + abs (amount t))%js) acc l).
Proof.
  intros Hacc Hl. revert acc Hacc.
  induction Hl as [|t l Ht Hl IH]; simpl; intros acc Hacc; [done|].
  apply IH, nonneg_add; [done|]. by apply nonneg_abs_expense.
Qed.

Lemma sum_abs_nonneg l :
  Forall (λ t, is_expense t = true) l → nonneg (sum_abs l).
Proof. apply sum_abs_from_nonneg, nonneg_zero. Qed.

Lemma Forall_filter_and {A} (f g : A → bool) l :
  Forall (λ x, g x = true) (List.filter (λ x, f x && g x) l).
Proof.
  apply Forall_forall. intros x [_ Hx]%list_elem_of_In%filter_In.
  by apply andb_true_iff in Hx as [_ ?].
Qed.

Lemma Forall_filter_and_l {A} (f g : A → bool) l :
  Forall (λ x, f x = true) (List.filter (λ x, f x && g x) l).
Proof.
  apply Forall_forall. intros x [_ Hx]%list_elem_of_In%filter_In.
  by apply andb_true_iff in Hx as [? _].
Qed.

(** ** Budget progress *)

Section budget_facts.
Context `{DateAPI}.

Lemma getCategorySpending_sum l categoryIcon :
  getCategorySpending l categoryIcon
  = sum_abs (List.filter
               (λ t, is_expense t && bool_decide (icon t = categoryIcon)) l).
Proof. apply abs_sum_expenses, Forall_filter_and_l. Qed.

Lemma budgetProgress_at_limit q :
  (0 < q)%Qc →
  percentage (budgetProgress (Fin q) (Fin q)) = of_Z 100
  ∧ isOverBudget (budgetProgress (Fin q) (Fin q)) = false
  ∧ overBudgetBy (budgetProgress (Fin q) (Fin q)) = None.
Proof.
  intros Hq. assert (q ≠ 0%Qc) as Hq0 by (by apply not_eq_sym, Qclt_not_eq).
  assert (isOverBudget (budgetProgress (Fin q) (Fin q)) = false) as Hover.
  { simpl. apply bool_decide_eq_false. apply Qcle_not_lt, Qcle_refl. }
  unfold budgetProgress in *. simpl in *. rewrite Hover.
  split_and!; [|done..].
  rewrite bool_decide_eq_false_2 by done.
  unfold Qcdiv. rewrite Qcmult_inv_r by done. compute_eq.
Qed.

(** C6: the budget list displays [min(round(spend/limit*100), 100)] as
    progress and flags a budget as exceeded by the comparison
    [spend > limit] alone, the spend being the sum of the absolute amounts
    of the expenses of the month under the icon of the category; at
    [spend = limit], for a positive limit, it displays 100 and does not
    flag the budget. *)
Theorem budget_progress_display now transactions budget item :
  budgetItem now transactions budget = Some item →
  percentage item
  = min (round ((spent item / limit budget) * of_Z 100)%js) (of_Z 100)
  ∧ isOverBudget item = (spent item > limit budget)%js
  ∧ overBudgetBy item
    = (if (spent item > limit budget)%js
       then Some (spent item - limit budget)%js else None)
  ∧ (∃ category,
       category ∈ categories ∧ cat_id category = categoryId budget
       ∧ spent item
         = sum_abs (List.filter
                      (λ t, is_expense t
                            && bool_decide (icon t = cat_icon category))
                      (monthTransactions now transactions)))
  ∧ (∀ q, (0 < q)%Qc → limit budget = Fin q → spent item = Fin q →
       percentage item = of_Z 100 ∧ isOverBudget item = false
       ∧ overBudgetBy item = None).
Proof.
  unfold budgetItem. intros Hitem.
  destruct (List.find _ categories) as [category|] eqn:Hfind; [|done].
  injection Hitem as <-. split_and!; try reflexivity.
  - apply find_some in Hfind as [Hin Hid]. exists category. split_and!.
    + by apply list_elem_of_In.
    + by apply bool_decide_eq_true in Hid.
    + apply getCategorySpending_sum.
  - intros q Hq Hlimit Hspent. simpl in Hspent. simpl.
    rewrite Hlimit, Hspent. by apply budgetProgress_at_limit.
Qed.
End budget_facts.

Lemma budget_progress_display_witness :
  let now := 1709164800000 in
  let ledger :=
    [Sample.tx "1" "Dinner" "Coffee" (of_Z (-120)) (Some 1709164800000);
     Sample.tx "2" "Lunch" "Coffee" (of_Z (-30)) (Some 1706832000000);
     Sample.tx "3" "Bus" "Truck" (of_Z (-7)) (Some 1706832000000);
     Sample.tx "4" "Refund" "Coffee" (of_Z 20) (Some 1706832000000);
     Sample.tx "5" "Brunch" "Coffee" (of_Z (-40)) (Some 1704067200000)] in
  let budget := {| categoryId := "food-dining"; limit := of_Z 100 |} in
  let item := {| spent := of_Z 150; percentage := of_Z 100;
                 isOverBudget := true; overBudgetBy := Some (of_Z 50) |} in
  @budgetItem UTC.api now ledger budget = Some item
  ∧ percentage item
    = min (round ((spent item / limit budget) * of_Z 100)%js) (of_Z 100)
  ∧ isOverBudget item = (spent item > limit budget)%js.
Proof.
  assert (@budgetItem UTC.api 1709164800000
            [Sample.tx "1" "Dinner" "Coffee" (of_Z (-120)) (Some 1709164800000);
             Sample.tx "2" "Lunch" "Coffee" (of_Z (-30)) (Some 1706832000000);
             Sample.tx "3" "Bus" "Truck" (of_Z (-7)) (Some 1706832000000);
             Sample.tx "4" "Refund" "Coffee" (of_Z 20) (Some 1706832000000);
             Sample.tx "5" "Brunch" "Coffee" (of_Z (-40)) (Some 1704067200000)]
            {| categoryId := "food-dining"; limit := of_Z 100 |}
          = Some {| spent := of_Z 150; percentage := of_Z 100;
                    isOverBudget := true; overBudgetBy := Some (of_Z 50) |})
    as Hitem by compute_eq.
  split; [exact Hitem|].
  pose proof (budget_progress_display _ _ _ _ Hitem) as (Hp & Ho & _).
  split; [exact Hp|exact Ho].
Defined.

(** ** Inserting expenses *)


Lemma map_clock_Forall2 {A B} (Q : A → B → Prop) (f : A → nat → B * nat) l k :
  (∀ a k, Q a (f a k).1) → Forall2 Q l (map_clock f l k).1.
Proof.
  intros Hf. revert k. induction l as [|a l IH]; simpl; intros k; [constructor|].
  specialize (Hf a k). destruct (f a k) as [b k1].
  specialize (IH k1). destruct (map_clock f l k1) as [bs k2].
  by constructor.
Qed.

Lemma Forall2_compose {A B C} (P : A → B → Prop) (Q : B → C → Prop)
    (R : A → C → Prop) l1 l2 l3 :
  (∀ a b c, P a b → Q b c → R a c) →
  Forall2 P l1 l2 → Forall2 Q l2 l3 → Forall2 R l1 l3.
Proof.
  intros HR H12. revert l3.
  induction H12 as [|a b l1 l2 Hab _ IH]; intros l3 H23;
    inversion H23; subst; constructor; eauto.
Qed.

Lemma Sample_remote_contract es ms : insert_contract (Sample.remote es ms).
Proof.
  split.
  - intros ins row _ [= <-]. done.
  - intros inss _. eexists. split; [reflexivity|].
    generalize 101%nat. induction inss as [|ins inss IH]; intros n; simpl.
    + constructor.
    + constructor; [done|].
      rewrite (imap_ext _ (λ i, Sample.persist (S n + i))); [apply IH|].
      intros i x _. simpl. f_equal. lia.
Qed.

Lemma Sample_offline_contract : insert_contract Sample.offline.
Proof. split; intros; simpl in *; discriminate. Qed.

Section handler_facts.
Context `{Host}.


(** C7: committing the staged receipt items empties the pending list on
    every path and inserts each staged item as a ledger transaction with
    the amount [-|price|]; when the remote store is absent or reports an
    error, the very transactions built from the staged items are inserted
    locally. *)
Theorem ocr_commit_inserts_all session st :
  session_contract session →
  let st' := addOcrExpenses session st in
  pendingItems st' = []
  ∧ (∃ items,
       transactionsList st' = insertSorted items (transactionsList st)
       ∧ Forall2 committed_as (pendingItems st) items)
  ∧ (¬ commit_persisted session st →
     transactionsList st' = insertSorted (localItems st) (transactionsList st)
     ∧ Forall2 committed_as (pendingItems st) (localItems st)).
Proof.
  intros Hcontract. simpl.
  unfold addOcrExpenses, commit_persisted, ocrPayload, localItems.
  pose proof (map_clock_Forall2 committed_as ocrTransaction
                (pendingItems st) 0) as Hlocal.
  destruct (map_clock ocrTransaction (pendingItems st) 0) as [news k].
  simpl in *.
  assert (Forall2 committed_as (pendingItems st) news) as Hnews.
  { apply Hlocal. intros item k0. unfold ocrTransaction.
    by destruct (transactionDate item k0). }
  destruct session as [remote|]; simpl; 
    [|split; [done|]; split; [by eauto|]; intros _; by split].
  pose proof (map_clock_Forall2
                (λ item ins, ins_label ins = description item
                             ∧ ins_amount ins = (- abs (price item))%js)
                ocrInsert (pendingItems st) k) as Hins.
  destruct (map_clock ocrInsert (pendingItems st) k) as [inserts k1].
  simpl in *.
  destruct (Hcontract remote eq_refl) as [_ Hbatch].
  specialize (Hbatch inserts).
  destruct (error (insert_expenses remote inserts)) as [e|] eqn:Herr; simpl.
  { split; [done|]. split; [by eauto|]. intros _. by split. }
  split; [done|]. split; [|intros Hfail; destruct Hfail; by eauto].
  destruct (Hbatch eq_refl) as (rows & -> & Hrows). simpl.
  eexists. split; [reflexivity|].
  assert (Forall2 (λ row t, label t = row_label row ∧ amount t = row_amount row)
            rows (map_clock savedTransaction rows k1).1) as Hsaved.
  { apply map_clock_Forall2. intros row k0. unfold savedTransaction.
    by destruct (transaction_at row). }
  assert (Forall2 (λ item ins, ins_label ins = description item
                               ∧ ins_amount ins = (- abs (price item))%js)
            (pendingItems st) inserts) as Hinserts.
  { apply Hins. intros item k0. unfold ocrInsert.
    by destruct (transactionDate item k0). }
  assert (Forall2 (λ ins t, label t = ins_label ins
                            ∧ amount t = ins_amount ins)
            inserts (map_clock savedTransaction rows k1).1) as Hback.
  { eapply Forall2_compose; [|exact Hrows|exact Hsaved].
    intros ins row t [Hl Ha] [Hl' Ha']. split; congruence. }
  eapply Forall2_compose; [|exact Hinserts|exact Hback].
  intros item ins t [Hil Hia] [Hl Ha]. split; congruence.
Qed.
End handler_facts.


Example manual_expense_zero_local :
  let st := Sample.state [] [] "0" in
  amount <$> transactionsList (@addManualExpense Sample.host None st) = [zero]
  ∧ label <$> transactionsList (@addManualExpense Sample.host None st) = ["Lunch"]
  ∧ @addManualExpense Sample.host None (Sample.state [] [] "abc")
    = Sample.state [] [] "abc".
Proof. split_and!; [compute_eq|done|done]. Qed.

Lemma ocr_commit_inserts_all_witness :
  let session := Some (Sample.remote [] []) in
  let st := Sample.state
              [Sample.tx "7" "Groceries" "ShoppingBag" (of_Z (-50))
                 (Some 1709251199000)]
              [Sample.item "Coffee" (dec 45 1); Sample.item "Bagel" (of_Z 3)]
              "" in
  let st' := @addOcrExpenses Sample.host session st in
  session_contract session
  ∧ label <$> transactionsList st' = ["Groceries"; "Coffee"; "Bagel"]
  ∧ amount <$> transactionsList st' = [of_Z (-50); dec (-45) 1; of_Z (-3)]
  ∧ pendingItems st' = [].
Proof.
  assert (session_contract (Some (Sample.remote [] []))) as Hc.
  { intros remote [= <-]. apply Sample_remote_contract. }
  split_and!; [exact Hc|reflexivity|compute_eq|].
  exact (proj1 (@ocr_commit_inserts_all Sample.host _
                  (Sample.state
                     [Sample.tx "7" "Groceries" "ShoppingBag" (of_Z (-50))
                        (Some 1709251199000)]
                     [Sample.item "Coffee" (dec 45 1);
                      Sample.item "Bagel" (of_Z 3)] "") Hc)).
Defined.

Example ocr_commit_offline :
  let st := Sample.state []
              [Sample.item "Coffee" (dec 45 1); Sample.item "Bagel" (of_Z 3)]
              "" in
  let st' := @addOcrExpenses Sample.host (Some Sample.offline) st in
  label <$> transactionsList st' = ["Coffee"; "Bagel"]
  ∧ amount <$> transactionsList st' = [dec (-45) 1; of_Z (-3)]
  ∧ pendingItems st' = []
  ∧ transactionsList st'
    = transactionsList (@addOcrExpenses Sample.host None st).
Proof. split_and!; [done|compute_eq|done|done]. Qed.

(** ** Month-over-month comparison *)

Section analytics_facts.
Context `{DateAPI}.

(** C4: [getMonthComparison] returns [change = current - previous], where
    both are sums of absolute expense amounts of the two calendar months,
    [changePercent = round(change / previous * 100)] when the sum of the
    previous month is strictly positive, and [changePercent = 0] when that
    sum is 0, whatever the sum of the current month. *)
Theorem month_comparison_change now transactions :
  let m := getMonthComparison now transactions in
  current m = sum_abs (month_expenses now 0 transactions)
  ∧ previous m = sum_abs (month_expenses now 1 transactions)
  ∧ change m = (current m - previous m)%js
  ∧ ((previous m > zero)%js = true →
     changePercent m = round ((change m / previous m) * of_Z 100)%js)
  ∧ (previous m = zero → changePercent m = zero)
  ∧ ((previous m > zero)%js = false ↔ previous m = zero).
Proof.
  assert (∀ from to,
            abs (sum_amounts
                   (List.filter
                      (λ t, dated_within from to t && is_expense t)
                      transactions))
            = sum_abs (List.filter
                         (λ t, dated_within from to t && is_expense t)
                         transactions)) as Habs.
  { intros from to. apply abs_sum_expenses, Forall_filter_and. }
  unfold month_expenses, getMonthComparison. cbv zeta.
  cbn [current previous change changePercent].
  rewrite Z.sub_0_r. replace (getMonth now - 1 + 1) with (getMonth now) by lia.
  rewrite !Habs.
  match goal with |- context [sum_abs ?l = sum_abs ?l ∧ sum_abs ?l' = _ ∧ _] =>
    assert (nonneg (sum_abs l')) as Hprev
      by apply sum_abs_nonneg, Forall_filter_and;
    generalize dependent (sum_abs l'); generalize (sum_abs l)
  end.
  intros c p Hprev. split_and!; try done.
  - by intros ->.
  - unfold gt. intros ->. by rewrite lt_zero_irrefl.
  - split; [by apply nonneg_not_gt_zero|].
    unfold gt. intros ->. apply lt_zero_irrefl.
Qed.

(** ** Day-of-week pattern *)



End analytics_facts.


Lemma month_comparison_change_witness :
  let now := 1709164800000 in
  let ledger :=
    [Sample.tx "1" "Dinner" "Coffee" (of_Z (-120)) (Some 1709164800000);
     Sample.tx "2" "Rent" "Home" (of_Z (-80)) (Some 1709164800001);
     Sample.tx "3" "Salary" "DollarSign" (of_Z 900) (Some 1706832000000);
     Sample.tx "4" "Old" "Home" (of_Z (-5)) None] in
  let m := @getMonthComparison UTC.api now ledger in
  previous m = zero
  ∧ current m = of_Z 200
  ∧ change m = of_Z 200
  ∧ changePercent m = zero.
Proof.
  intros now ledger m.
  assert (previous m = zero) as Hprev by compute_eq.
  split_and!; [exact Hprev|compute_eq|compute_eq|].
  exact (proj1 (proj2 (proj2 (proj2 (proj2
           (@month_comparison_change UTC.api now ledger))))) Hprev).
Defined.

Example day_of_week_empty_ledger :
  @getDayOfWeekPatterns UTC.api []
  = Some (imap (λ i d, {| day := d; dayIndex := Z.of_nat i;
                          dow_totalAmount := zero; dow_transactionCount := 0;
                          averageAmount := zero |}) dayNames).
Proof. by vm_compute. Qed.

(** ** Objects used as dictionaries *)

Section obj_facts.
Context {V : Type}.
Implicit Types (o : Obj.t V) (k : string) (v : V).

Lemma Obj_get_None o k : Obj.get o k = None ↔ k ∉ o.*1.
Proof.
  induction o as [|[k' v'] o IH]; simpl.
  - split; [intros _; apply not_elem_of_nil|done].
  - rewrite not_elem_of_cons. case_bool_decide; [naive_solver|].
    rewrite IH. naive_solver.
Qed.






End obj_facts.

(** ** Merchant ranking *)

Lemma record_payment_name m t : name (record_payment m t) = name m.
Proof. done. Qed.


















(** * Further properties of the code *)

(** ** Filtering arrays *)

Lemma filter_sublist {A} (f : A → bool) l : List.filter f l `sublist_of` l.
Proof.
  induction l as [|x l IH]; simpl; [constructor|].
  destruct (f x); by constructor.
Qed.

Lemma filter_elem_of {A} (f : A → bool) l x :
  x ∈ List.filter f l ↔ x ∈ l ∧ f x = true.
Proof. by rewrite !list_elem_of_In, filter_In. Qed.

Lemma filter_id {A} (f : A → bool) l :
  Forall (λ x, f x = true) l → List.filter f l = l.
Proof. induction 1 as [|x l Hx _ IH]; simpl; [done|]. by rewrite Hx, IH. Qed.

Lemma filter_StronglySorted {A} (R : relation A) (f : A → bool) l :
  StronglySorted R l → StronglySorted R (List.filter f l).
Proof.
  induction 1 as [|x l Hl IH Hx]; simpl; [constructor|].
  destruct (f x); [|done]. constructor; [done|].
  apply Forall_forall. intros y [Hy _]%filter_elem_of.
  by apply (proj1 (Forall_forall _ _) Hx).
Qed.

(** ** Deleting an expense *)

(** X1: [deleteExpense] removes from the ledger exactly the transactions
    with the given id, whatever the remote store answers: the others stay,
    in their order, so a ledger that was sorted and had unique ids still is;
    and when no transaction has the id, the state is unchanged. *)
Theorem deleteExpense_removes_id remote_delete expenseId st :
  let ledger := transactionsList st in
  let st' := deleteExpense remote_delete expenseId st in
  (∀ t, t ∈ transactionsList st' ↔ t ∈ ledger ∧ id t ≠ expenseId)
  ∧ transactionsList st' `sublist_of` ledger
  ∧ (StronglySorted newest_first ledger →
     StronglySorted newest_first (transactionsList st'))
  ∧ (NoDup (id <$> ledger) → NoDup (id <$> transactionsList st'))
  ∧ (expenseId ∉ id <$> ledger → st' = st)
  ∧ st' = deleteExpense None expenseId st.
Proof.
  simpl.
  assert (deleteExpense remote_delete expenseId st
          = setTransactionsList
              (List.filter (λ item, negb (bool_decide (id item = expenseId))))
              st) as ->.
  { unfold deleteExpense. destruct remote_delete as [delete|]; [|done].
    by destruct (delete expenseId). }
  simpl. split_and!.
  - intros t. rewrite filter_elem_of, negb_true_iff, bool_decide_eq_false. done.
  - apply filter_sublist.
  - apply filter_StronglySorted.
  - intros Hnd. eapply sublist_NoDup; [exact Hnd|].
    apply fmap_sublist, filter_sublist.
  - intros Habsent. destruct st. unfold setTransactionsList. simpl in *.
    f_equal. apply filter_id, Forall_forall. intros t Ht.
    apply negb_true_iff, bool_decide_eq_false. intros Hid. apply Habsent.
    apply list_elem_of_fmap. by exists t.
  - done.
Qed.

(** ** Merging a page *)

Lemma mergePage_Permutation all prev :
  mergePage all prev
  ≡ₚ prev ++ List.filter (λ t, negb (bool_decide (id t ∈ id <$> prev))) all.
Proof. apply Array_sort_Permutation. Qed.

Lemma mergePage_elem_of all prev t :
  t ∈ mergePage all prev ↔ t ∈ prev ∨ (t ∈ all ∧ id t ∉ id <$> prev).
Proof.
  rewrite mergePage_Permutation, elem_of_app, filter_elem_of.
  by rewrite negb_true_iff, bool_decide_eq_false.
Qed.

Lemma loadTransactions_keeps session reset st t :
  reset = false → t ∈ transactionsList st →
  t ∈ transactionsList (loadTransactions session reset st).
Proof.
  intros -> Ht. unfold loadTransactions. destruct session as [remote|]; [|done].
  destruct (error _); [done|]. simpl. apply mergePage_elem_of. by left.
Qed.

(** X2: [loadMoreTransactions] never drops a transaction that is already
    in the ledger and leaves the ledger sorted if it was, whatever the two
    sources answer; it does nothing at all while a load is in flight or
    when [hasMoreTransactions] is false. *)
Theorem loadMore_keeps_ledger session p :
  let p' := loadMoreTransactions session p in
  (∀ t, t ∈ transactionsList (app p) → t ∈ transactionsList (app p'))
  ∧ (StronglySorted newest_first (transactionsList (app p)) →
     StronglySorted newest_first (transactionsList (app p')))
  ∧ (isLoadingMore p = true ∨ hasMoreTransactions (app p) = false → p' = p).
Proof.
  simpl. unfold loadMoreTransactions.
  destruct (isLoadingMore p) eqn:Hflight; simpl; [done|].
  destruct (hasMoreTransactions (app p)) eqn:Hmore; simpl.
  - split_and!.
    + intros t Ht. by apply loadTransactions_keeps.
    + intros Hsorted. unfold loadTransactions.
      destruct session as [remote|]; [|done].
      destruct (error _); [done|]. simpl. apply by_date_desc_sorted.
    + intros [?|?]; done.
  - done.
Qed.

(** ** Unique ids across the two sources *)

Lemma mapMp_id_prefix row : String.prefix "mp_" (id (mapMp row)) = true.
Proof. cbn. by destruct (mp_id row). Qed.

Lemma page_ids_unique es ms :
  page_contract es ms →
  NoDup (id <$> (mapExpense <$> es) ++ (mapMp <$> ms)).
Proof.
  intros (Hes & Hms & Hprefix). rewrite fmap_app, <-!list_fmap_compose.
  apply NoDup_app. split_and!.
  - done.
  - intros i [e [-> He]]%list_elem_of_fmap [m [Hid _]]%list_elem_of_fmap.
    apply (proj1 (Forall_forall _ _) Hprefix) in He.
    change (row_id e = id (mapMp m)) in Hid.
    rewrite Hid in He. by rewrite mapMp_id_prefix in He.
  - replace ((id ∘ mapMp) <$> ms) with (String.app "mp_" <$> (mp_id <$> ms))
      by (by rewrite <-list_fmap_compose).
    by apply (NoDup_fmap_2 _).
Qed.

(** X3: when the page each source answers with has unique record ids and no
    manual expense id starts with "mp_", a load, with or without reset,
    leaves a ledger with unique ids unique: the namespacing of the
    message-derived ids and the filter on existing ids suffice. *)
Theorem load_keeps_ids_unique remote reset st :
  NoDup (id <$> transactionsList st) →
  page_contract
    (default [] (data (select_expenses remote (load_offset reset st))))
    (default [] (data (select_transactions remote (load_offset reset st)))) →
  NoDup (id <$> transactionsList (loadTransactions (Some remote) reset st)).
Proof.
  intros Hprev Hpage%page_ids_unique.
  destruct (error (select_expenses remote (load_offset reset st))) as [e|] eqn:Herr.
  - rewrite loadTransactions_failure; [done|].
    intros (r & [= <-] & Hr). congruence.
  - rewrite loadTransactions_success by done. unfold expensesPage, mpPage.
    assert (NoDup (id <$> Array_sort by_date_desc
                     ((mapExpense <$> default [] (data (select_expenses remote
                                                   (load_offset reset st))))
                      ++ (mapMp <$> default [] (data (select_transactions remote
                                                   (load_offset reset st)))))))
      as Hall by (by rewrite Array_sort_Permutation).
    destruct reset; simpl; [done|]. by apply mergePage_ids.
Qed.

Lemma load_keeps_ids_unique_witness :
  let remote := Sample.remote
                  [Sample.expense "7" (of_Z (-50)) (Some 1709251199000);
                   Sample.expense "8" (of_Z (-20)) None]
                  [Sample.mp "7" (Some "payment_sent") (of_Z 10)] in
  let st := Sample.state [Sample.tx "7" "Groceries" "ShoppingBag" (of_Z (-50))
                            (Some 1709251199000)] [] "" in
  id <$> transactionsList (loadTransactions (Some remote) false st)
  = ["7"; "mp_7"; "8"]
  ∧ NoDup (id <$> transactionsList (loadTransactions (Some remote) false st)).
Proof.
  intros remote st. split; [reflexivity|].
  apply (load_keeps_ids_unique remote false st).
  - by apply (bool_decide_unpack _).
  - split_and!; by apply (bool_decide_unpack _).
Defined.

(** ** Failure of a source *)

(** X4: when the query of the manual expenses reports an error, or there is
    no session, [loadTransactions] changes nothing, even if the
    message-derived source answered with a page. *)
Theorem load_failure_keeps_state session reset st :
  ¬ load_succeeds session reset st → loadTransactions session reset st = st.
Proof. apply loadTransactions_failure. Qed.

Lemma load_failure_keeps_state_witness :
  let remote :=
    {| select_expenses := λ _, {| data := None; error := Some "timeout" |};
       select_transactions := λ _,
         {| data := Some [Sample.mp "1" (Some "deposit") (of_Z 10)];
            error := None |};
       insert_expense := insert_expense Sample.offline;
       insert_expenses := insert_expenses Sample.offline |} in
  let st := Sample.state [Sample.tx "7" "Groceries" "ShoppingBag" (of_Z (-50))
                            None] [] "" in
  ¬ load_succeeds (Some remote) true st
  ∧ loadTransactions (Some remote) true st = st.
Proof.
  intros remote st.
  assert (¬ load_succeeds (Some remote) true st) as Hfail.
  { intros (r & [= <-] & Hr). discriminate. }
  split; [exact Hfail|]. exact (load_failure_keeps_state _ _ _ Hfail).
Defined.

(** X5: when only the message-derived query fails (an error and no data), a
    load with reset goes through on the manual expenses alone: the ledger
    becomes their mapped records, sorted, and [hasMoreTransactions] tells
    whether that page was full. *)
Theorem load_partial_success remote st :
  error (select_expenses remote 0) = None →
  data (select_transactions remote 0) = None →
  let st' := loadTransactions (Some remote) true st in
  transactionsList st'
  = Array_sort by_date_desc
      (mapExpense <$> default [] (data (select_expenses remote 0)))
  ∧ hasMoreTransactions st'
    = bool_decide (length (default [] (data (select_expenses remote 0)))
                   = ITEMS_PER_PAGE).
Proof.
  intros Herr Hmp. cbv zeta. rewrite loadTransactions_success by done.
  unfold expensesPage, mpPage, load_offset. rewrite Hmp. simpl.
  rewrite app_nil_r, length_fmap, orb_false_r. done.
Qed.

Lemma load_partial_success_witness :
  let remote :=
    {| select_expenses := λ _,
         {| data := Some [Sample.expense "8" (of_Z (-20)) None;
                          Sample.expense "7" (of_Z (-50)) (Some 1709251199000)];
            error := None |};
       select_transactions := λ _, {| data := None; error := Some "timeout" |};
       insert_expense := insert_expense Sample.offline;
       insert_expenses := insert_expenses Sample.offline |} in
  let st := Sample.state [] [] "" in
  id <$> transactionsList (loadTransactions (Some remote) true st) = ["7"; "8"]
  ∧ hasMoreTransactions (loadTransactions (Some remote) true st) = false.
Proof.
  intros remote st. split; [reflexivity|].
  exact (proj2 (load_partial_success remote st eq_refl eq_refl)).
Defined.

(** ** Budgets *)

Lemma saveBudget_cons c l b prev :
  saveBudget c l (b :: prev)
  = if bool_decide (categoryId b = c)
    then {| categoryId := c; limit := l |} :: prev
    else b :: saveBudget c l prev.
Proof.
  unfold saveBudget. cbn [list_find]. case_bool_decide as Hb.
  - by rewrite decide_True.
  - rewrite decide_False by done.
    by destruct (list_find _ prev) as [[i x]|].
Qed.

Ltac case_category b c :=
  let Hb := fresh "Hb" in
  destruct (decide (categoryId b = c)) as [Hb|Hb];
  [rewrite ?(bool_decide_eq_true_2 _ Hb)|rewrite ?(bool_decide_eq_false_2 _ Hb)].

Lemma saveBudget_find c l prev c' :
  getBudgetForCategory (saveBudget c l prev) c'
  = if bool_decide (c = c') then Some {| categoryId := c; limit := l |}
    else getBudgetForCategory prev c'.
Proof.
  unfold getBudgetForCategory. induction prev as [|b prev IH]; [done|].
  rewrite saveBudget_cons. case_category b c; cbn.
  - subst c. by destruct (bool_decide (categoryId b = c')).
  - rewrite IH. repeat case_bool_decide; congruence.
Qed.

Lemma saveBudget_keys c l prev :
  categoryId <$> saveBudget c l prev
  = if bool_decide (c ∈ categoryId <$> prev) then categoryId <$> prev
    else (categoryId <$> prev) ++ [c].
Proof.
  induction prev as [|b prev IH]; [done|].
  rewrite saveBudget_cons, !fmap_cons. case_category b c.
  - subst c. rewrite bool_decide_eq_true_2 by apply list_elem_of_here. done.
  - rewrite fmap_cons, IH. destruct (decide (c ∈ categoryId <$> prev)).
    + rewrite !bool_decide_eq_true_2; [done|by apply list_elem_of_further|done].
    + rewrite !bool_decide_eq_false_2; [done| |done].
      rewrite not_elem_of_cons. naive_solver.
Qed.

Lemma saveBudget_elem_of c l prev b :
  b ∈ saveBudget c l prev → b = {| categoryId := c; limit := l |} ∨ b ∈ prev.
Proof.
  induction prev as [|b0 prev IH].
  - intros ->%list_elem_of_singleton. by left.
  - rewrite saveBudget_cons. case_category b0 c.
    + intros [->|?]%elem_of_cons; [by left|right; by apply list_elem_of_further].
    + intros [->|[->|?]%IH]%elem_of_cons;
        [right; apply list_elem_of_here|by left|right; by apply list_elem_of_further].
Qed.

(** X6: saving a budget and looking it up is a round trip: the lookup of
    the saved category answers the budget just saved, whether the category
    had one or not, the lookup of every other category answers what it did
    before, and the list grows by one entry exactly when the category had
    no budget. *)
Theorem saveBudget_lookup c l prev :
  getBudgetForCategory (saveBudget c l prev) c
  = Some {| categoryId := c; limit := l |}
  ∧ (∀ c', c' ≠ c →
       getBudgetForCategory (saveBudget c l prev) c'
       = getBudgetForCategory prev c')
  ∧ length (saveBudget c l prev)
    = match getBudgetForCategory prev c with
      | Some _ => length prev
      | None => S (length prev)
      end.
Proof.
  split_and!.
  - by rewrite saveBudget_find, bool_decide_eq_true_2.
  - intros c' Hc'. by rewrite saveBudget_find, bool_decide_eq_false_2.
  - unfold getBudgetForCategory. induction prev as [|b prev IH]; [done|].
    rewrite saveBudget_cons. case_category b c; cbn;
      rewrite ?(bool_decide_eq_true_2 _ Hb), ?(bool_decide_eq_false_2 _ Hb);
      [done|].
    rewrite IH. by destruct (List.find _ prev).
Qed.

(** X7: removing the budget of a category makes its lookup answer nothing
    and leaves the lookup of every other category as it was; removing a
    category that has no budget changes nothing. *)
Theorem removeBudget_lookup c prev :
  getBudgetForCategory (removeBudget c prev) c = None
  ∧ (∀ c', c' ≠ c →
       getBudgetForCategory (removeBudget c prev) c'
       = getBudgetForCategory prev c')
  ∧ (getBudgetForCategory prev c = None → removeBudget c prev = prev).
Proof.
  unfold getBudgetForCategory, removeBudget. split_and!.
  - induction prev as [|b prev IH]; [done|]. cbn.
    case_category b c; cbn; [done|]. by rewrite (bool_decide_eq_false_2 _ Hb).
  - intros c' Hc'. induction prev as [|b prev IH]; [done|]. cbn.
    case_category b c; cbn.
    + subst c. by rewrite bool_decide_eq_false_2.
    + by rewrite IH.
  - induction prev as [|b prev IH]; [done|]. cbn.
    case_category b c; cbn; [done|]. intros Hnone. by rewrite IH.
Qed.

(** X8: the budget list keeps its two invariants under the "Save Budget"
    button and under removal: at most one budget per category, and every
    limit finite and positive; a limit that is not finite and positive is
    refused and the list is unchanged. *)
Theorem budgets_invariant c l budgets :
  NoDup (categoryId <$> budgets) → Forall valid_budget budgets →
  NoDup (categoryId <$> submitBudget c l budgets)
  ∧ Forall valid_budget (submitBudget c l budgets)
  ∧ NoDup (categoryId <$> removeBudget c budgets)
  ∧ Forall valid_budget (removeBudget c budgets)
  ∧ (isFinite l = false ∨ (l > zero)%js = false →
     submitBudget c l budgets = budgets).
Proof.
  intros Hnd Hvalid. unfold submitBudget. split_and!.
  - destruct (isFinite l && (l > zero)%js); [|done].
    rewrite saveBudget_keys. case_bool_decide as Hc; [done|].
    apply NoDup_app. split_and!; [done| |apply NoDup_singleton].
    intros x Hx ->%list_elem_of_singleton. done.
  - destruct (isFinite l && (l > zero)%js) eqn:Hl; [|done].
    apply andb_true_iff in Hl. apply Forall_forall.
    intros b [->|Hb]%saveBudget_elem_of; [done|].
    by apply (proj1 (Forall_forall _ _) Hvalid).
  - eapply sublist_NoDup; [exact Hnd|]. apply fmap_sublist, filter_sublist.
  - apply Forall_forall. intros b [Hb _]%filter_elem_of.
    by apply (proj1 (Forall_forall _ _) Hvalid).
  - intros [-> | ->]; [done|by rewrite andb_false_r].
Qed.

Lemma budgets_invariant_witness :
  let budgets := [ {| categoryId := "food-dining"; limit := of_Z 100 |};
                   {| categoryId := "transportation"; limit := dec 405 1 |} ] in
  NoDup (categoryId <$> budgets) ∧ Forall valid_budget budgets
  ∧ submitBudget "food-dining" (of_Z 250) budgets
    = [ {| categoryId := "food-dining"; limit := of_Z 250 |};
        {| categoryId := "transportation"; limit := dec 405 1 |} ]
  ∧ submitBudget "food-dining" (of_Z (-3)) budgets = budgets
  ∧ NoDup (categoryId <$> submitBudget "food-dining" (of_Z 250) budgets)
  ∧ Forall valid_budget (submitBudget "food-dining" (of_Z 250) budgets).
Proof.
  intros budgets.
  assert (NoDup (categoryId <$> budgets)) as Hnd by (by apply (bool_decide_unpack _)).
  assert (Forall valid_budget budgets) as Hvalid.
  { repeat constructor; by vm_compute. }
  split_and!; [exact Hnd|exact Hvalid|reflexivity|reflexivity|..].
  - exact (proj1 (budgets_invariant "food-dining" (of_Z 250) budgets Hnd Hvalid)).
  - exact (proj1 (proj2 (budgets_invariant "food-dining" (of_Z 250) budgets
                           Hnd Hvalid))).
Defined.

(** ** Inserts keep the ledger *)

Section insert_facts.
Context `{Host}.




End insert_facts.


(** ** Amount input *)

Lemma remove_commas_insert_separators prev s :
  remove_commas (insert_separators prev s) = remove_commas s.
Proof.
  revert prev. induction s as [|c s IH]; intros prev; [done|].
  cbn [insert_separators].
  destruct (not_word_boundary prev (Some c) && groups_of_three_ahead (String c s));
    cbn; rewrite IH; done.
Qed.

Lemma remove_commas_app s1 s2 :
  remove_commas (s1 +:+ s2) = remove_commas s1 +:+ remove_commas s2.
Proof.
  induction s1 as [|c s1 IH]; [done|].
  change (remove_commas (String c (s1 +:+ s2))
          = remove_commas (String c s1) +:+ remove_commas s2).
  cbn [remove_commas]. rewrite IH. by case_bool_decide.
Qed.

Lemma split_on_nonempty c s : split_on c s ≠ [].
Proof.
  destruct s as [|x s]; [done|]. cbn.
  case_bool_decide; [done|]. by destruct (split_on c s).
Qed.

Lemma join_split_on c s : join_on c (split_on c s) = s.
Proof.
  induction s as [|x s IH]; [done|]. cbn [split_on].
  pose proof (split_on_nonempty c s) as Hne.
  destruct (split_on c s) as [|p ps] eqn:Hs; [done|].
  case_bool_decide as Hx.
  - subst x. change (join_on c ("" :: p :: ps))
      with (String c (join_on c (p :: ps))). by rewrite IH.
  - destruct ps as [|p' ps]; [cbn in *; by subst|].
    change (join_on c (String x p :: p' :: ps))
      with (String x (join_on c (p :: p' :: ps))). by rewrite IH.
Qed.

Lemma length_split_on c s : length (split_on c s) = S (count_char c s).
Proof.
  induction s as [|x s IH]; [done|]. cbn.
  case_bool_decide; cbn; [by rewrite IH|].
  destruct (split_on c s); cbn in *; done.
Qed.

(** X10: for a typed amount without commas and with at most one decimal
    point, parsing the formatted value gives the typed amount back: the
    thousands separators of [formatAmountInput] are all [parseAmountInput]
    removes. *)
Theorem amount_input_round_trip value :
  comma_free value → (count_char "." value ≤ 1)%nat →
  parseAmountInput (formatAmountInput value) = value.
Proof.
  unfold comma_free, parseAmountInput, formatAmountInput.
  intros Hcommas Hdots. case_bool_decide as Hempty; [by subst|].
  pose proof (join_split_on "." value) as Hjoin.
  pose proof (length_split_on "." value) as Hlen.
  destruct (split_on "." value) as [|p0 [|p1 [|p2 ps]]]; cbn in Hlen; try lia.
  - cbn in *. subst p0. by rewrite remove_commas_insert_separators.
  - cbn in *. rewrite <-Hjoin in Hcommas |- *.
    rewrite remove_commas_app in Hcommas |- *.
    by rewrite remove_commas_insert_separators.
Qed.

Lemma amount_input_round_trip_witness :
  comma_free "1234567.891" ∧ (count_char "." "1234567.891" ≤ 1)%nat
  ∧ formatAmountInput "1234567.891" = "1,234,567.891"
  ∧ parseAmountInput (formatAmountInput "1234567.891") = "1234567.891".
Proof.
  assert (comma_free "1234567.891") as Hc by reflexivity.
  assert (count_char "." "1234567.891" ≤ 1)%nat as Hd by (vm_compute; lia).
  split_and!; [exact Hc|exact Hd|reflexivity|].
  exact (amount_input_round_trip "1234567.891" Hc Hd).
Defined.

(** ** Monthly trends *)

Lemma filter_filter {A} (f g : A → bool) l :
  List.filter g (List.filter f l) = List.filter (λ x, f x && g x) l.
Proof.
  induction l as [|x l IH]; simpl; [done|].
  destruct (f x); simpl; [destruct (g x)|]; by rewrite IH.
Qed.

Section monthly_facts.
Context `{DateAPI}.

Lemma monthlyLoop_rev now transactions n :
  monthlyLoop now transactions n
  = rev ((λ k, monthlyEntry now transactions (Z.of_nat k)) <$> seq 0 n).
Proof.
  induction n as [|n IH]; [done|].
  rewrite seq_S, fmap_app, rev_app_distr. simpl. by rewrite IH.
Qed.

Lemma monthlyEntry_expenses now transactions back :
  calendar_coherent now back →
  expenses (monthlyEntry now transactions back)
  = sum_abs (month_expenses now back transactions).
Proof.
  intros [Hstart Hend]. unfold monthlyEntry, month_expenses.
  cbv zeta in *. cbn [expenses]. rewrite Hstart, Hend, filter_filter.
  apply abs_sum_expenses, Forall_filter_and.
Qed.

(** X11: the monthly trend and the month comparison agree: where the host
    calendar is coherent at the current and at the previous month,
    [getMonthlySpendingData] returns [monthsBack] entries, oldest first,
    whose last two expense figures are the [previous] and the [current]
    of [getMonthComparison]. *)
Theorem monthly_trend_matches_comparison now transactions monthsBack :
  2 <= monthsBack →
  calendar_coherent now 0 → calendar_coherent now 1 →
  let data := getMonthlySpendingData now transactions monthsBack in
  let m := getMonthComparison now transactions in
  Z.of_nat (length data) = monthsBack
  ∧ ∃ older, expenses <$> data = older ++ [previous m; current m].
Proof.
  intros Hback H0 H1. cbv zeta. unfold getMonthlySpendingData.
  rewrite monthlyLoop_rev. split.
  - rewrite length_rev, length_fmap, length_seq. lia.
  - destruct (Z.to_nat monthsBack) as [|[|n]] eqn:Hn; [lia..|].
    cbn [seq fmap list_fmap rev]. rewrite <-!(assoc_L (++)). cbn [app].
    rewrite fmap_app. eexists. f_equal. rewrite fmap_app. cbn [fmap list_fmap app].
    rewrite (monthlyEntry_expenses now transactions (Z.of_nat 1)) by done.
    rewrite (monthlyEntry_expenses now transactions (Z.of_nat 0)) by done.
    unfold getMonthComparison, month_expenses. cbv zeta. cbn [previous current].
    rewrite <-!abs_sum_expenses by apply Forall_filter_and.
    change (Z.of_nat 1) with 1. change (Z.of_nat 0) with 0.
    rewrite Z.sub_0_r. replace (getMonth now - 1 + 1) with (getMonth now) by lia.
    done.
Qed.
End monthly_facts.

Lemma monthly_trend_matches_comparison_witness :
  let now := 1709164800000 in
  let ledger :=
    [Sample.tx "1" "Dinner" "Coffee" (of_Z (-120)) (Some 1709164800000);
     Sample.tx "2" "Rent" "Home" (of_Z (-80)) (Some 1705276800000);
     Sample.tx "3" "Salary" "DollarSign" (of_Z 900) (Some 1704067200000);
     Sample.tx "4" "Old" "Home" (of_Z (-5)) None] in
  2 <= 6
  ∧ @calendar_coherent UTC.api now 0 ∧ @calendar_coherent UTC.api now 1
  ∧ expenses <$> @getMonthlySpendingData UTC.api now ledger 6
    = [zero; zero; zero; zero; of_Z 80; of_Z 120]
  ∧ Z.of_nat (length (@getMonthlySpendingData UTC.api now ledger 6)) = 6.
Proof.
  intros now ledger.
  assert (2 <= 6) as Hback by lia.
  assert (@calendar_coherent UTC.api now 0) as H0 by (split; by vm_compute).
  assert (@calendar_coherent UTC.api now 1) as H1 by (split; by vm_compute).
  split_and!; [exact Hback|exact H0|exact H1|compute_eq|].
  exact (proj1 (@monthly_trend_matches_comparison UTC.api now ledger 6
                  Hback H0 H1)).
Defined.

(** ** Password strength *)

Lemma getPasswordStrength_score password :
  score (getPasswordStrength password)
  = if bool_decide (password = "") then 0
    else Z.max 1 (passed_checks (passwordChecks password)).
Proof.
  unfold getPasswordStrength, passed_checks. case_bool_decide; [done|].
  cbv zeta.
  destruct (chk_length _), (chk_lowercase _), (chk_uppercase _),
    (chk_numbers _), (chk_special _); reflexivity.
Qed.

Lemma has_char_app class s t :
  has_char class (s +:+ t) = has_char class s || has_char class t.
Proof.
  induction s as [|c s IH]; [done|].
  change (has_char class (String c (s +:+ t))
          = has_char class (String c s) || has_char class t).
  cbn [has_char]. by rewrite IH, orb_assoc.
Qed.

Lemma string_length_app s t :
  String.length (s +:+ t) = (String.length s + String.length t)%nat.
Proof.
  induction s as [|c s IH]; [done|].
  change (S (String.length (s +:+ t)) = S (String.length s + String.length t)).
  by rewrite IH.
Qed.

Lemma b2z_le (a b : bool) : (a = true → b = true) → Z.b2z a <= Z.b2z b.
Proof. destruct a, b; simpl; intros Hab; try lia; by specialize (Hab eq_refl). Qed.

(** X12: the password score is 0 for the empty password only and lies
    between 1 and 5 otherwise; it reaches the 3 that sign-up asks for
    exactly when at least three of the five checks pass; and typing more
    characters never lowers it. *)
Theorem password_score password more :
  let s := score (getPasswordStrength password) in
  (s = 0 ↔ password = "")
  ∧ (password ≠ "" → 1 <= s <= 5)
  ∧ (3 <= s ↔ 3 <= passed_checks (passwordChecks password))
  ∧ s <= score (getPasswordStrength (password +:+ more)).
Proof.
  cbv zeta. rewrite !getPasswordStrength_score.
  assert (0 <= passed_checks (passwordChecks password) <= 5) as Hrange.
  { unfold passed_checks.
    destruct (chk_length _), (chk_lowercase _), (chk_uppercase _),
      (chk_numbers _), (chk_special _); simpl; lia. }
  split_and!.
  - case_bool_decide; [done|]. split; [lia|done].
  - intros Hne. rewrite bool_decide_eq_false_2 by done. lia.
  - case_bool_decide as Hp; [|lia]. subst. by vm_compute.
  - case_bool_decide as Hp.
    + case_bool_decide; lia.
    + rewrite bool_decide_eq_false_2 by (by destruct password).
      apply Z.max_le_compat_l. unfold passed_checks, passwordChecks.
      cbn [chk_length chk_lowercase chk_uppercase chk_numbers chk_special].
      rewrite !has_char_app, string_length_app.
      repeat apply Z.add_le_mono; apply b2z_le;
        rewrite ?orb_true_iff, ?bool_decide_eq_true; (lia || tauto).
Qed.

(** ** Capturing a receipt *)

(** X13: once a file is selected and a credential is set,
    [handleFileUpload] ends with the modal open, the loading flag cleared,
    and exactly one of two outcomes: at least one staged item, each dated
    with the receipt date, and no error; or no staged item and a non-empty
    error message.  Without a file nothing changes, and without a
    credential the staged items are untouched and the settings are opened. *)
Theorem upload_outcome file geminiApiKey outcome s :
  let s' := handleFileUpload file geminiApiKey outcome s in
  (file = false → s' = s)
  ∧ (file = true → geminiApiKey = "" →
     ocr_pendingItems s' = ocr_pendingItems s ∧ ocrError s' = ocrError s
     ∧ isOcrLoading s' = isOcrLoading s ∧ isSettingsModalVisible s' = true)
  ∧ (file = true → geminiApiKey ≠ "" →
     isOcrLoading s' = false ∧ ocr_modalVisible s' = true
     ∧ ((ocr_pendingItems s' ≠ [] ∧ ocrError s' = None
         ∧ ∃ receiptDate items,
             outcome = Scanned receiptDate items
             ∧ ocr_pendingItems s' = withDate receiptDate <$> items)
        ∨ (ocr_pendingItems s' = []
           ∧ ∃ message, ocrError s' = Some message ∧ message ≠ ""))).
Proof.
  cbv zeta. unfold handleFileUpload. split_and!.
  - by intros ->.
  - intros -> ->. done.
  - intros -> Hkey. cbn [negb]. rewrite bool_decide_eq_false_2 by done.
    destruct outcome as [receiptDate items|message].
    + case_bool_decide as Hitems; cbn.
      * split_and!; [done..|]. left. split_and!; [|done|by eauto].
        destruct items; [simpl in Hitems; lia|done].
      * split_and!; [done..|]. right. split; [done|]. by eexists.
    + cbn. split_and!; [done..|]. right. split; [done|].
      eexists. split; [done|]. by case_bool_decide.
Qed.

Lemma categoryMapping_icons :
  Forall (λ kv, Obj.get categoryMapping kv.1 = Some kv.2 ∧ kv.2.1 ≠ "")
    categoryMapping.
Proof. repeat constructor; done. Qed.

(** X14: every item [scanReceiptWithGemini] stages has a non-empty
    description and a price that is not [NaN]; its category is one
    [categoryMapping] answers for, with the icon of the table, and a
    missing or unknown category becomes "miscellaneous-other" with the icon
    "MoreHorizontal". *)
Theorem stageItem_valid now index item :
  let staged := stageItem now index item in
  description staged ≠ ""
  ∧ isNaN (price staged) = false
  ∧ (∃ c, category staged = Some c ∧ answers_for categoryMapping c = true
          ∧ categoryIcon staged = fst <$> Obj.get categoryMapping c)
  ∧ ((∀ c, raw_category item = Some c → answers_for categoryMapping c = false) →
     category staged = Some "miscellaneous-other"
     ∧ categoryIcon staged = Some "MoreHorizontal").
Proof.
  cbv zeta. unfold stageItem. cbn [description price category categoryIcon].
  split_and!.
  - destruct (raw_description item) as [[|c d]|]; done.
  - destruct (raw_price item) as [q| | |]; cbn; try done.
    by destruct (negb _).
  - destruct (nonempty (raw_category item)) as [c|];
      [destruct (answers_for categoryMapping c) eqn:Hc|]; eauto.
  - intros Hunknown. destruct (raw_category item) as [[|a c]|]; cbn; [done| |done].
    by rewrite (Hunknown _ eq_refl).
Qed.

(** ** Completeness of the merchant ranking *)





(** ** Every dated expense falls on one weekday *)

Section weekday_facts.
Context `{DateAPI}.



End weekday_facts.

(** ** Labels of the message-derived records *)




(** ** Overview figures *)

Lemma lt_of_Z a b : (of_Z a < of_Z b)%js = bool_decide (a < b).
Proof. unfold of_Z. simpl. apply bool_decide_ext. by rewrite <-Z2Qc_inj_lt. Qed.

Lemma min_of_Z a b : min (of_Z a) (of_Z b) = of_Z (Z.min a b).
Proof.
  unfold min. change (Fin (Qc_of_Z a)) with (of_Z a).
  change (Fin (Qc_of_Z b)) with (of_Z b). cbn [of_Z].
  fold (of_Z a). fold (of_Z b). rewrite lt_of_Z.
  case_bool_decide; [rewrite Z.min_r by lia|rewrite Z.min_l by lia]; done.
Qed.

Lemma max_of_Z a b : max (of_Z a) (of_Z b) = of_Z (Z.max a b).
Proof.
  unfold max. cbn [of_Z]. fold (of_Z a). fold (of_Z b). rewrite lt_of_Z.
  case_bool_decide; [rewrite Z.max_r by lia|rewrite Z.max_l by lia]; done.
Qed.

Lemma sub_of_Z a b : (of_Z a - of_Z b)%js = of_Z (a - b).
Proof. unfold of_Z, sub. simpl. by rewrite Z2Qc_inj_sub. Qed.

Lemma round_nonneg q : (0 <= q)%Qc → ∃ z, 0 <= z ∧ round (Fin q) = of_Z z.
Proof.
  intros Hq. eexists. split; [|reflexivity].
  rewrite <-(Qfloor_Z 0). apply Qfloor_resp_le.
  apply Qle_trans with (this q); [exact Hq|].
  rewrite <-(Qplus_0_r (this q)) at 1. by apply Qplus_le_r.
Qed.

Lemma sum_amounts_finite l :
  Forall (λ t, isFinite (amount t) = true) l → isFinite (sum_amounts l) = true.
Proof.
  unfold sum_amounts. generalize zero (eq_refl : isFinite zero = true).
  intros acc Hacc Hl. revert acc Hacc.
  induction Hl as [|t l Ht _ IH]; intros acc Hacc; simpl; [done|].
  apply IH. by destruct acc, (amount t).
Qed.

Lemma ratio_of_finite i e :
  (0 <= e)%Qc →
  ∃ r, 0 <= r <= 100
       ∧ spendingRatio (Fin i) (Fin e)
         = of_Z (if (Fin i > zero)%js then r else 0)
       ∧ savingsRate (Fin i) (Fin e)
         = of_Z (if (Fin i > zero)%js then 100 - r else 0).
Proof.
  intros He. unfold savingsRate, spendingRatio.
  destruct (Fin i > zero)%js eqn:Hi; [|exists 0; split; [lia|done]].
  assert (0 < i)%Qc as Hpos.
  { unfold gt in Hi. rewrite zero_eq in Hi. by apply bool_decide_eq_true in Hi. }
  assert (i ≠ 0%Qc) as Hi0 by (by apply not_eq_sym, Qclt_not_eq).
  assert (0 <= e / i * Qc_of_Z 100)%Qc as Hq.
  { rewrite <-(Qcmult_0_l (Qc_of_Z 100)). apply Qcmult_le_compat_r.
    - apply (Qcmult_lt_0_le_reg_r _ _ i Hpos).
      rewrite Qcmult_0_l, Qcmult_comm, Qcmult_div_r by done. done.
    - rewrite <-Z2Qc_inj_0. by apply Z2Qc_inj_le. }
  destruct (round_nonneg _ Hq) as (z & Hz & Hround).
  exists (Z.min z 100). split; [lia|].
  assert ((Fin e / Fin i * of_Z 100)%js = Fin (e / i * Qc_of_Z 100)) as ->.
  { unfold div. by rewrite bool_decide_eq_false_2. }
  rewrite Hround, min_of_Z. split; [done|].
  rewrite sub_of_Z. change zero with (of_Z 0). rewrite max_of_Z.
  f_equal. lia.
Qed.

(** X18: on a month whose amounts are all finite, the spending ratio and
    the savings rate of the overview are whole percentages between 0 and
    100 that add up to 100 when the month has income, and are both 0 when
    it has none. *)
Theorem overview_rates monthTransactions :
  Forall (λ t, isFinite (amount t) = true) monthTransactions →
  let inc := monthIncome monthTransactions in
  let exp := monthExpenses monthTransactions in
  ∃ r, 0 <= r <= 100
       ∧ spendingRatio inc exp = of_Z (if (inc > zero)%js then r else 0)
       ∧ savingsRate inc exp = of_Z (if (inc > zero)%js then 100 - r else 0).
Proof.
  intros Hfin. cbv zeta. unfold monthIncome, monthExpenses.
  assert (∀ f, isFinite (sum_amounts (List.filter f monthTransactions)) = true)
    as Hsum.
  { intros f. apply sum_amounts_finite, Forall_forall.
    intros t [Ht _]%filter_elem_of. by apply (proj1 (Forall_forall _ _) Hfin). }
  pose proof (Hsum is_income) as Hinc. pose proof (Hsum is_expense) as Hexp.
  destruct (sum_amounts (List.filter is_income monthTransactions)) as [i| | |];
    try done.
  destruct (sum_amounts (List.filter is_expense monthTransactions)) as [e| | |];
    try done.
  apply ratio_of_finite, Qcabs_nonneg.
Qed.

Lemma overview_rates_witness :
  let ledger :=
    [Sample.tx "1" "Dinner" "Coffee" (of_Z (-120)) (Some 1709164800000);
     Sample.tx "2" "Rent" "Home" (of_Z (-80)) (Some 1706832000000);
     Sample.tx "3" "Salary" "DollarSign" (of_Z 900) (Some 1706832000000)] in
  Forall (λ t, isFinite (amount t) = true) ledger
  ∧ spendingRatio (monthIncome ledger) (monthExpenses ledger) = of_Z 22
  ∧ savingsRate (monthIncome ledger) (monthExpenses ledger) = of_Z 78
  ∧ ∃ r, 0 <= r <= 100
       ∧ spendingRatio (monthIncome ledger) (monthExpenses ledger)
         = of_Z (if (monthIncome ledger > zero)%js then r else 0)
       ∧ savingsRate (monthIncome ledger) (monthExpenses ledger)
         = of_Z (if (monthIncome ledger > zero)%js then 100 - r else 0).
Proof.
  intros ledger.
  assert (Forall (λ t, isFinite (amount t) = true) ledger) as Hfin
    by (repeat constructor).
  split_and!; [exact Hfin|compute_eq|compute_eq|].
  exact (overview_rates ledger Hfin).
Defined.

(** ** Adding and deleting *)

Section sorted_insert.
Context {A R : Type} `{CompareResult R} (comparefn : A → A → R).

Lemma Array_sort_sorted_id (Rel : relation A) l :
  (∀ a b, Rel a b → not_positive (comparefn a b) = true) →
  StronglySorted Rel l → Array_sort comparefn l = l.
Proof.
  intros Hrel. induction 1 as [|x l Hl IH Hx]; simpl; [done|].
  rewrite IH. destruct l as [|y l']; simpl; [done|].
  apply Forall_cons in Hx as [Hxy _]. by rewrite (Hrel _ _ Hxy).
Qed.

Lemma filter_sort_insert (f : A → bool) x l :
  f x = false →
  List.filter f (sort_insert comparefn x l) = List.filter f l.
Proof.
  intros Hx. induction l as [|y l IH]; simpl; [by rewrite Hx|].
  destruct (not_positive (comparefn x y)); simpl; [by rewrite Hx|].
  by rewrite IH.
Qed.
End sorted_insert.

Section add_delete.
Context `{Host}.

(** X19: adding a manual expense without a session and deleting it again
    by the id it was given restores the ledger, provided the ledger was
    sorted and did not hold that id: the insert places the new transaction
    without disturbing the order of the others. *)
Theorem add_then_delete_restores st :
  isFinite (Number_of_string (manualAmount st)) = true →
  StronglySorted newest_first (transactionsList st) →
  pretty (clock 0) ∉ id <$> transactionsList st →
  transactionsList
    (deleteExpense None (pretty (clock 0)) (addManualExpense None st))
  = transactionsList st.
Proof.
  intros Hfin Hsorted Hfresh.
  assert (Array_sort by_date_desc (transactionsList st) = transactionsList st)
    as Hsame.
  { apply (Array_sort_sorted_id by_date_desc newest_first); [|done].
    intros a b Hab. apply Z.leb_le. unfold newest_first, by_date_desc in *. lia. }
  unfold addManualExpense. rewrite Hfin.
  cbn [negb deleteExpense transactionsList setTransactionsList resetManualForm].
  unfold insertSorted.
  match goal with |- context [Array_sort by_date_desc ([?x] ++ ?l)] =>
    change (Array_sort by_date_desc ([x] ++ l))
      with (sort_insert by_date_desc x (Array_sort by_date_desc l))
  end.
  rewrite Hsame.
  rewrite filter_sort_insert by (cbn; by rewrite bool_decide_eq_true_2).
  apply filter_id, Forall_forall. intros t Ht.
  apply negb_true_iff, bool_decide_eq_false. intros Hid. apply Hfresh.
  apply list_elem_of_fmap. by exists t.
Qed.
End add_delete.

Lemma add_then_delete_restores_witness :
  let st := Sample.state
              [Sample.tx "7" "Groceries" "ShoppingBag" (of_Z (-50))
                 (Some 1709251199000);
               Sample.tx "3" "Old" "Home" (of_Z (-5)) None] [] "12.50" in
  id <$> transactionsList (@addManualExpense Sample.host None st)
  = ["7"; "1700000000000"; "3"]
  ∧ transactionsList
      (deleteExpense None "1700000000000" (@addManualExpense Sample.host None st))
    = transactionsList st.
Proof.
  intros st. split; [reflexivity|].
  apply (@add_then_delete_restores Sample.host st).
  - reflexivity.
  - repeat constructor; by vm_compute.
  - by apply (bool_decide_unpack _).
Defined.
